(** * Signal-input migration, pass 6: replacement generation and import consistency

    A shallow embedding of [pass6__migrateInputDeclarations]
    (packages/core/schematics/migrations/signal-migration/src/passes/
    6_migrate_input_declarations.ts) and the properties of its two loops.

    The pass mutates two objects it receives ([result.replacements] and the
    import manager) and two local sets.  It is embedded in a small state and
    exception monad whose state keeps those four pieces, together with the
    sequence of actions the run has taken.  A thrown [AssertionError] leaves
    the state as the mutations made so far have left it, as in JavaScript. *)

From Stdlib Require Import ZArith Lia.
From stdpp Require Import base option list gmap strings.

#[local] Set Warnings "-clear-no-such-hyp".

Local Open Scope string_scope.
Local Open Scope list_scope.
Local Open Scope Z_scope.

(** ** The TypeScript nodes the pass looks at *)

(** A [ts.SourceFile] object is identified by its file name. *)
Abbreviation SourceFile := string (only parsing).

Inductive SyntaxKind : Type :=
  | PropertyDeclaration
  | GetAccessor
  | SetAccessor.

(** The input's class member: [getSourceFile()], [getStart()], [getEnd()]
    and the node kind that [ts.isAccessor] inspects. *)
Record Node : Type := mkNode {
  getSourceFile : SourceFile;
  getStart : Z;
  getEnd : Z;
  kind : SyntaxKind
}.

(** [ts.isAccessor(node)]: the node is a [get] or a [set] accessor. *)
Definition isAccessor (n : Node) : bool :=
  match kind n with
  | GetAccessor | SetAccessor => true
  | PropertyDeclaration => false
  end.

(** Key of [result.sourceInputs]: the input descriptor. *)
Record InputDescriptor : Type := mkInput {
  key : string;
  node : Node
}.

(** ** tsurge: text updates and replacements *)

Record TextUpdate : Type := mkTextUpdate {
  position : Z;
  end_ : Z;
  toInsert : string
}.

(** [new Replacement(projectFile, update)]. *)
Record Replacement (ProjectFile : Type) : Type := mkReplacement {
  r_projectFile : ProjectFile;
  r_update : TextUpdate
}.
Arguments mkReplacement {ProjectFile} _ _.
Arguments r_projectFile {ProjectFile} _.
Arguments r_update {ProjectFile} _.

(** Two updates of one file overlap when their character ranges
    [[position, end)] meet; an insertion ([position = end]) overlaps a range
    it falls strictly inside of. *)
Definition overlaps (a b : TextUpdate) : Prop :=
  position a < end_ b ∧ position b < end_ a.

(** ** The migration host

    [host.config.insertTodosForSkippedFields], the one option the pass
    reads. *)
Record MigrationConfig : Type := mkConfig {
  insertTodosForSkippedFields : bool
}.

Record MigrationHost : Type := mkHost {
  config : MigrationConfig
}.

(** ** Outcomes

    A call returns or throws; the pass throws nothing but the
    [AssertionError] of [assert]. *)
Inductive Error : Type :=
  | AssertionError (message : string).

Inductive Outcome (A : Type) : Type :=
  | Return (a : A)
  | Throw (e : Error).
Arguments Return {A} _.
Arguments Throw {A} _.

(** ** Collaborators

    The classifier ([KnownInputs] and the input info it returns), the TODO
    annotator, the text synthesizer, the import manager and [projectFile] are
    imported by the pass; it only calls them.  They are taken as an
    interface, each with the arguments the pass hands it.  The synthesizer
    receives the import manager and may change it; the annotator does not
    receive it.  The collaborators are taken to return: the only exception
    of a run is the one the pass raises itself. *)
Class Collaborators : Type := {
  Metadata : Type;
  InputInfo : Type;
  ImportManager : Type;
  TypeChecker : Type;
  ProgramInfo : Type;
  ProjectFile : Type;
  (** [inputInfo.isIncompatible()] *)
  isIncompatible : InputInfo → bool;
  (** [importManager.removeImport(file, symbol, moduleName)] *)
  removeImport : ImportManager → SourceFile → string → string → ImportManager;
  (** [projectFile(sf, info)] *)
  projectFile : SourceFile → ProgramInfo → ProjectFile;
  (** [insertTodoForIncompatibility(node, info, inputInfo)] *)
  insertTodoForIncompatibility :
    Node → ProgramInfo → InputInfo → list (Replacement ProjectFile);
  (** [convertToSignalInput(node, metadata, checker, importManager, result)]:
      the text it returns and the import manager as it leaves it.  It is
      handed [result] as well; it returns text and may register imports, and
      leaves [result.replacements] alone. *)
  convertToSignalInput :
    Node → Metadata → TypeChecker → ImportManager → string * ImportManager
}.

Section Pass.
Context `{C : Collaborators}.

Abbreviation Edit := (Replacement ProjectFile).

(** [MigrationResult]: the registry [sourceInputs], a [Map] iterated in
    insertion order, and the [replacements] array. *)
Record MigrationResult : Type := mkResult {
  sourceInputs : list (InputDescriptor * option Metadata);
  result_replacements : list Edit
}.

(** [knownInputs.get(input)!]: with its [!] the pass takes every input of
    the registry to be known. *)
Definition KnownInputs : Type := InputDescriptor → InputInfo.

(** ** Actions of a run, in the order they happen *)
Inductive Event : Type :=
  (** line 42: the annotator was called and its edits were pushed *)
  | Annotated (input : InputDescriptor) (edits : list Edit)
  (** lines 45-46: the file was added to [filesWithIncompatibleInputs] *)
  | Skipped (input : InputDescriptor)
  (** lines 52-62: the file was added to [filesWithMigratedInputs] and the
      replacement of the whole declaration was pushed *)
  | Migrated (input : InputDescriptor) (edit : Edit)
  (** line 68: [importManager.removeImport(file, symbol, moduleName)] *)
  | ImportRemoved (file : SourceFile) (symbol moduleName : string).

(** ** State of a run *)
Record State : Type := mkState {
  replacements : list Edit;                       (* result.replacements *)
  importManager : ImportManager;
  filesWithMigratedInputs : list SourceFile;      (* Set, insertion order *)
  filesWithIncompatibleInputs : gset string;      (* WeakSet *)
  trace : list Event
}.

Definition M (A : Type) : Type := State → Outcome A * State.

Definition ret {A} (a : A) : M A := λ st, (Return a, st).

Definition bind {A B} (m : M A) (k : A → M B) : M B :=
  λ st, match m st with
        | (Return a, st') => k a st'
        | (Throw e, st') => (Throw e, st')
        end.

Definition throw {A} (e : Error) : M A := λ st, (Throw e, st).

Definition gets {A} (f : State → A) : M A := λ st, (Return (f st), st).

Definition modify (f : State → State) : M unit := λ st, (Return tt, f st).

#[global] Instance M_ret : MRet M := @ret.
#[global] Instance M_bind : MBind M := λ A B k m, bind m k.

(** [for (const x of xs) body] *)
Fixpoint forEach {A} (xs : list A) (body : A → M unit) : M unit :=
  match xs with
  | [] => ret tt
  | x :: xs' => body x;; forEach xs' body
  end.

(** [assert(value, message)] *)
Definition assert (value : bool) (message : string) : M unit :=
  if value then ret tt else throw (AssertionError message).

(** [set.add(x)] on a [Set]: a value already present keeps its place. *)
Definition Set_add (x : SourceFile) (s : list SourceFile) : list SourceFile :=
  if decide (x ∈ s) then s else s ++ [x].

(** [result.replacements.push(...edits)] *)
Definition push (edits : list Edit) : M unit :=
  modify (λ st, mkState (replacements st ++ edits) (importManager st)
                        (filesWithMigratedInputs st)
                        (filesWithIncompatibleInputs st) (trace st)).

Definition addMigrated (sf : SourceFile) : M unit :=
  modify (λ st, mkState (replacements st) (importManager st)
                        (Set_add sf (filesWithMigratedInputs st))
                        (filesWithIncompatibleInputs st) (trace st)).

Definition addIncompatible (sf : SourceFile) : M unit :=
  modify (λ st, mkState (replacements st) (importManager st)
                        (filesWithMigratedInputs st)
                        ({[sf]} ∪ filesWithIncompatibleInputs st) (trace st)).

Definition setImportManager (im : ImportManager) : M unit :=
  modify (λ st, mkState (replacements st) im
                        (filesWithMigratedInputs st)
                        (filesWithIncompatibleInputs st) (trace st)).

Definition record (ev : Event) : M unit :=
  modify (λ st, mkState (replacements st) (importManager st)
                        (filesWithMigratedInputs st)
                        (filesWithIncompatibleInputs st) (trace st ++ [ev])).

Definition metadataMessage : string :=
  "Expected metadata to exist for input isn't marked incompatible.".
Definition accessorMessage : string := "Accessor inputs are incompatible.".

Section Run.
Variables (host : MigrationHost) (checker : TypeChecker)
          (knownInputs : KnownInputs) (info : ProgramInfo).

(** Lines 39-47, the branch of an incompatible input. *)
Definition skipInput (input : InputDescriptor) (inputInfo : InputInfo) : M unit :=
  let sf := getSourceFile (node input) in
  (if insertTodosForSkippedFields (config host) then
     let edits := insertTodoForIncompatibility (node input) info inputInfo in
     push edits;;
     record (Annotated input edits)
   else ret tt);;
  addIncompatible sf;;
  record (Skipped input).

(** Lines 49-62, reached by an input that is not incompatible. *)
Definition migrateInput (input : InputDescriptor) (metadata : option Metadata)
  : M unit :=
  let sf := getSourceFile (node input) in
  match metadata with
  | None => throw (AssertionError metadataMessage)
  | Some metadata =>
      assert (negb (isAccessor (node input))) accessorMessage;;
      addMigrated sf;;
      im ← gets importManager;
      let '(text, im') :=
        convertToSignalInput (node input) metadata checker im in
      setImportManager im';;
      let edit :=
        mkReplacement (projectFile sf info)
          (mkTextUpdate (getStart (node input)) (getEnd (node input)) text) in
      push [edit];;
      record (Migrated input edit)
  end.

(** Body of the first loop, lines 34-63. *)
Definition visitInput (entry : InputDescriptor * option Metadata) : M unit :=
  let '(input, metadata) := entry in
  let inputInfo := knownInputs input in
  if isIncompatible inputInfo then skipInput input inputInfo
  else migrateInput input metadata.

(** Body of the second loop, lines 65-70. *)
Definition removeInputImport (file : SourceFile) : M unit :=
  incompatible ← gets filesWithIncompatibleInputs;
  if decide (file ∈ incompatible) then ret tt
  else
    im ← gets importManager;
    setImportManager (removeImport im file "Input" "@angular/core");;
    record (ImportRemoved file "Input" "@angular/core").

Definition migrateDeclarations
  (registry : list (InputDescriptor * option Metadata)) : M unit :=
  forEach registry visitInput.

Definition removeUnusedImports : M unit :=
  files ← gets filesWithMigratedInputs;
  forEach files removeInputImport.

End Run.

(** The pass: both sets start empty; [result.replacements] and the import
    manager are the objects passed in.  The outcome is paired with the state
    the run leaves behind. *)
Definition pass6__migrateInputDeclarations
    (host : MigrationHost) (checker : TypeChecker) (result : MigrationResult)
    (knownInputs : KnownInputs) (importManager : ImportManager)
    (info : ProgramInfo) : Outcome unit * State :=
  (migrateDeclarations host checker knownInputs info (sourceInputs result);;
   removeUnusedImports)
    (mkState (result_replacements result) importManager [] ∅ []).

(** ** What a trace says

    The edits, the files and the commands of a run, read off its trace. *)

Definition editsOf (ev : Event) : list Edit :=
  match ev with
  | Annotated _ edits => edits
  | Migrated _ edit => [edit]
  | _ => []
  end.

Definition todoEditsOf (ev : Event) : list Edit :=
  match ev with
  | Annotated _ edits => edits
  | _ => []
  end.

Definition migrateEditsOf (ev : Event) : list Edit :=
  match ev with
  | Migrated _ edit => [edit]
  | _ => []
  end.

Definition migratedFileOf (ev : Event) : list SourceFile :=
  match ev with
  | Migrated input _ => [getSourceFile (node input)]
  | _ => []
  end.

Definition skippedFileOf (ev : Event) : list SourceFile :=
  match ev with
  | Skipped input => [getSourceFile (node input)]
  | _ => []
  end.

Definition isAnnotation (ev : Event) : bool :=
  match ev with Annotated _ _ => true | _ => false end.

Definition isRemoval (ev : Event) : bool :=
  match ev with ImportRemoved _ _ _ => true | _ => false end.

Definition isRemovalOf (file : SourceFile) (ev : Event) : bool :=
  match ev with
  | ImportRemoved f _ _ => bool_decide (f = file)
  | _ => false
  end.

(** The input's iteration of the first loop ran to its end. *)
Definition processed (input : InputDescriptor) (evs : list Event) : Prop :=
  Skipped input ∈ evs ∨ ∃ edit, Migrated input edit ∈ evs.

Section Summary.
Variables (host : MigrationHost) (checker : TypeChecker)
          (knownInputs : KnownInputs) (info : ProgramInfo).

(** The replacement of a whole declaration, lines 54-61. *)
Definition fullReplacement (input : InputDescriptor) (text : string) : Edit :=
  mkReplacement (projectFile (getSourceFile (node input)) info)
    (mkTextUpdate (getStart (node input)) (getEnd (node input)) text).

(** What line 42 pushes for an incompatible input. *)
Definition todoEdits (input : InputDescriptor) : list Edit :=
  if insertTodosForSkippedFields (config host) then
    insertTodoForIncompatibility (node input) info (knownInputs input)
  else [].

Definition skipEvents (input : InputDescriptor) : list Event :=
  (if insertTodosForSkippedFields (config host) then
     [Annotated input
        (insertTodoForIncompatibility (node input) info (knownInputs input))]
   else []) ++ [Skipped input].

(** The entry makes one of the two assertions of lines 49-50 fail. *)
Definition violatesContract (entry : InputDescriptor * option Metadata) : bool :=
  negb (isIncompatible (knownInputs entry.1)) &&
  (match entry.2 with None => true | Some _ => false end
   || isAccessor (node entry.1)).

(** The message of the assertion that fails first. *)
Definition violationMessage (entry : InputDescriptor * option Metadata) : string :=
  match entry.2 with
  | None => metadataMessage
  | Some _ => accessorMessage
  end.

(** The first loop as a recursion on the registry: its outcome, the import
    manager it leaves and the events it adds.  [migrateDeclarations_firstLoop]
    below proves that the loop does exactly this. *)
Fixpoint firstLoop (registry : list (InputDescriptor * option Metadata))
    (im : ImportManager) : Outcome unit * ImportManager * list Event :=
  match registry with
  | [] => (Return tt, im, [])
  | (input, metadata) :: rest =>
      if isIncompatible (knownInputs input) then
        let '(o, im', evs) := firstLoop rest im in
        (o, im', skipEvents input ++ evs)
      else
        match metadata with
        | None => (Throw (AssertionError metadataMessage), im, [])
        | Some metadata =>
            if isAccessor (node input) then
              (Throw (AssertionError accessorMessage), im, [])
            else
              let '(text, im1) :=
                convertToSignalInput (node input) metadata checker im in
              let '(o, im', evs) := firstLoop rest im1 in
              (o, im', Migrated input (fullReplacement input text) :: evs)
        end
  end.

End Summary.

(** The state the pass starts from. *)
Definition initial (result : MigrationResult) (im : ImportManager) : State :=
  mkState (result_replacements result) im [] ∅ [].

(** The state after the events [evs] of the first loop. *)
Definition afterEvents (st : State) (im : ImportManager) (evs : list Event)
  : State :=
  mkState (replacements st ++ flat_map editsOf evs) im
    (foldl (λ s f, Set_add f s) (filesWithMigratedInputs st)
       (flat_map migratedFileOf evs))
    (list_to_set (flat_map skippedFileOf evs) ∪ filesWithIncompatibleInputs st)
    (trace st ++ evs).

(** The files the second loop removes the import from, in its order. *)
Definition filesToClean (st : State) : list SourceFile :=
  filter (λ f, f ∉ filesWithIncompatibleInputs st) (filesWithMigratedInputs st).

Definition removalOf (file : SourceFile) : Event :=
  ImportRemoved file "Input" "@angular/core".

Definition afterRemovals (st : State) : State :=
  mkState (replacements st)
    (foldl (λ im f, removeImport im f "Input" "@angular/core")
       (importManager st) (filesToClean st))
    (filesWithMigratedInputs st) (filesWithIncompatibleInputs st)
    (trace st ++ map removalOf (filesToClean st)).

(** The edits a run has appended to [result.replacements]. *)
Definition appended (result : MigrationResult) (st : State) : list Edit :=
  drop (length (result_replacements result)) (replacements st).

End Pass.


(** ** Vocabulary of the properties *)

(** [R] holds between the elements at any two different places of [l]. *)
Definition Pairwise {A} (R : A → A → Prop) (l : list A) : Prop :=
  ∀ i j x y, i ≠ j → l !! i = Some x → l !! j = Some y → R x y.

(** The update lies wholly before or wholly after the node. *)
Definition outside (u : TextUpdate) (n : Node) : Prop :=
  end_ u ≤ getStart n ∨ getEnd n ≤ position u.

(** The two nodes cover disjoint ranges. *)
Definition disjointNodes (n1 n2 : Node) : Prop :=
  getEnd n1 ≤ getStart n2 ∨ getEnd n2 ≤ getStart n1.

(** Two edits may both be applied: they target different files or their
    ranges do not overlap. *)
Definition compatibleEdits {PF} (r1 r2 : Replacement PF) : Prop :=
  r_projectFile r1 = r_projectFile r2 → ¬ overlaps (r_update r1) (r_update r2).

Section Statements.
Context `{C : Collaborators}.
Variables (host : MigrationHost) (checker : TypeChecker)
          (knownInputs : KnownInputs) (info : ProgramInfo).

Abbreviation Registry := (list (InputDescriptor * option Metadata)).

(** Where an event of the first loop comes from: an input of the registry on
    the branch its classification selects. *)
Definition eventFrom (registry : Registry) (ev : Event) : Prop :=
  match ev with
  | Annotated input edits =>
      insertTodosForSkippedFields (config host) = true ∧
      isIncompatible (knownInputs input) = true ∧
      edits = insertTodoForIncompatibility (node input) info (knownInputs input) ∧
      ∃ metadata, (input, metadata) ∈ registry
  | Skipped input =>
      isIncompatible (knownInputs input) = true ∧
      ∃ metadata, (input, metadata) ∈ registry
  | Migrated input edit =>
      isIncompatible (knownInputs input) = false ∧
      isAccessor (node input) = false ∧
      ∃ metadata text,
        (input, Some metadata) ∈ registry ∧
        edit = fullReplacement info input text
  | ImportRemoved _ _ _ => False
  end.

(** The target file of the edits of an input. *)
Definition targetOf (entry : InputDescriptor * option Metadata) : ProjectFile :=
  projectFile (getSourceFile (node entry.1)) info.

(** The edits the annotator returns for the entries it is asked about. *)
Definition annotationsOf (entry : InputDescriptor * option Metadata)
  : list (Replacement ProjectFile) :=
  if isIncompatible (knownInputs entry.1) then
    insertTodoForIncompatibility (node entry.1) info (knownInputs entry.1)
  else [].

(** Every declaration of the registry went down exactly one of the two
    paths, the one its classification selects, and that path recorded the
    declaration's file in its set. *)
Definition exhaustive (result : MigrationResult) (im : ImportManager) : Prop :=
  let run :=
    pass6__migrateInputDeclarations host checker result knownInputs im info in
  ∀ input metadata,
    (input, metadata) ∈ sourceInputs result →
    match isIncompatible (knownInputs input) with
    | true =>
        Skipped input ∈ trace run.2 ∧
        (∀ edit, Migrated input edit ∉ trace run.2) ∧
        getSourceFile (node input) ∈ filesWithIncompatibleInputs run.2
    | false =>
        (∃ edit, Migrated input edit ∈ trace run.2) ∧
        (Skipped input ∉ trace run.2) ∧
        getSourceFile (node input) ∈ filesWithMigratedInputs run.2
    end.

(** Distinct declarations of one file occupy disjoint ranges. *)
Definition declarationsDisjoint (registry : Registry) : Prop :=
  Pairwise
    (λ e1 e2, targetOf e1 = targetOf e2 → disjointNodes (node e1.1) (node e2.1))
    registry.

(** Every edit of the annotator lies outside the range of the declaration it
    annotates. *)
Definition annotationsOutsideOwn (registry : Registry) : Prop :=
  ∀ entry edit,
    entry ∈ registry → edit ∈ annotationsOf entry →
    outside (r_update edit) (node entry.1).

(** Every edit of the annotator lies outside the range of every declaration
    of the registry in the file it targets. *)
Definition annotationsOutsideAll (registry : Registry) : Prop :=
  ∀ entry other edit,
    entry ∈ registry → other ∈ registry → edit ∈ annotationsOf entry →
    r_projectFile edit = targetOf other →
    outside (r_update edit) (node other.1).

(** The edits of the annotator do not overlap one another, be they for one
    declaration or for two. *)
Definition annotationsDisjoint (registry : Registry) : Prop :=
  (∀ entry, entry ∈ registry → Pairwise compatibleEdits (annotationsOf entry)) ∧
  Pairwise
    (λ e1 e2, ∀ t1 t2,
       t1 ∈ annotationsOf e1 → t2 ∈ annotationsOf e2 → compatibleEdits t1 t2)
    registry.

(** The edits the run has appended are pairwise applicable: no two of them
    for one file overlap. *)
Definition editsDisjoint (result : MigrationResult) (im : ImportManager) : Prop :=
  Pairwise compatibleEdits
    (appended result
       (pass6__migrateInputDeclarations
          host checker result knownInputs im info).2).

End Statements.


(** ** Further vocabulary: order, shape and composition *)

Section Plan.
Context `{C : Collaborators}.
Variables (host : MigrationHost) (checker : TypeChecker)
          (knownInputs : KnownInputs) (info : ProgramInfo).

(** The entries the first loop goes through: those before the first one
    that makes an assertion of lines 49-50 fail. *)
Fixpoint visitedEntries (registry : list (InputDescriptor * option Metadata))
  : list (InputDescriptor * option Metadata) :=
  match registry with
  | [] => []
  | entry :: rest =>
      if violatesContract knownInputs entry then []
      else entry :: visitedEntries rest
  end.

(** The input whose iteration of the first loop an event closes. *)
Definition processedInputOf (ev : Event) : list InputDescriptor :=
  match ev with
  | Skipped input => [input]
  | Migrated input _ => [input]
  | _ => []
  end.

(** The file a remove-import command names. *)
Definition removedFileOf (ev : Event) : list SourceFile :=
  match ev with
  | ImportRemoved file _ _ => [file]
  | _ => []
  end.

(** Target and character range of an edit, without its text. *)
Definition shapeOf (edit : Replacement ProjectFile) : ProjectFile * Z * Z :=
  (r_projectFile edit, position (r_update edit), end_ (r_update edit)).

(** The shapes of the edits one iteration of the first loop pushes: those of
    the annotator's edits on line 42, or the one of lines 53-62. *)
Definition plannedShapes (entry : InputDescriptor * option Metadata)
  : list (ProjectFile * Z * Z) :=
  if isIncompatible (knownInputs entry.1) then
    map shapeOf (todoEdits host knownInputs info entry.1)
  else
    [(projectFile (getSourceFile (node entry.1)) info,
      getStart (node entry.1), getEnd (node entry.1))].

(** The import manager after the call of line 59 for the entry, if the
    iteration makes that call. *)
Definition synthesizerEffect (im : ImportManager)
    (entry : InputDescriptor * option Metadata) : ImportManager :=
  if isIncompatible (knownInputs entry.1) then im
  else
    match entry.2 with
    | Some metadata =>
        (convertToSignalInput (node entry.1) metadata checker im).2
    | None => im
    end.

(** The pass run a second time, on the result and the import manager the
    first run has left. *)
Definition rerun (result : MigrationResult) (im : ImportManager)
  : Outcome unit * State :=
  let first :=
    pass6__migrateInputDeclarations host checker result knownInputs im info in
  pass6__migrateInputDeclarations host checker
    (mkResult (sourceInputs result) (replacements first.2))
    knownInputs (importManager first.2) info.

(** The claim on the second loop read over whole runs: the command is issued
    for a file exactly when the run leaves the file in the first set and not
    in the second. *)
Definition removalFollowsSets (result : MigrationResult) (im : ImportManager)
  : Prop :=
  let run :=
    pass6__migrateInputDeclarations host checker result knownInputs im info in
  ∀ F,
    ImportRemoved F "Input" "@angular/core" ∈ trace run.2 ↔
    F ∈ filesWithMigratedInputs run.2 ∧
    F ∉ filesWithIncompatibleInputs run.2.

End Plan.

(** The members of a list, each once, in the order of their first
    occurrence. *)
Fixpoint firstOccurrences (files : list SourceFile) : list SourceFile :=
  match files with
  | [] => []
  | f :: rest => f :: filter (λ g, g ≠ f) (firstOccurrences rest)
  end.

(** ** Error messages of the image loader tests

    [absoluteUrlError] and [invalidPathError] of
    packages/common/test/image_loaders/image_loader_spec.ts, lines 17-26:
    the messages the loaders are expected to throw. *)

Definition absoluteUrlError (src path : string) : string :=
  ("NG02959: Image loader has detected a `<img>` tag with an invalid " +:+
   "`ngSrc` attribute: " +:+ src +:+ ". This image loader expects `ngSrc` " +:+
   "to be a relative URL - however the provided value is an absolute URL. " +:+
   "To fix this, provide `ngSrc` as a path relative to the base URL " +:+
   "configured for this loader (`" +:+ path +:+ "`).")%string.

Definition invalidPathError (path formats : string) : string :=
  ("NG02959: Image loader has detected an invalid path (`" +:+ path +:+ "`). " +:+
   "To fix this, supply a path using one of the following formats: " +:+
   formats)%string.
(** ** Stub collaborators

    Canned collaborators for running the pass on concrete registries: the
    input info carries the verdict and the updates the annotator will
    return, the metadata is the text the synthesizer prints, and the import
    manager remembers the calls it received. *)
Module Stub.

Inductive ImportCall : Type :=
  | AddImport (file : SourceFile) (symbol moduleName : string)
  | RemoveImport (file : SourceFile) (symbol moduleName : string).

Record Info : Type := mkInfo {
  incompatible : bool;
  todos : list TextUpdate
}.

#[local] Instance collaborators : Collaborators := {|
  Metadata := string;
  InputInfo := Info;
  ImportManager := list ImportCall;
  TypeChecker := unit;
  ProgramInfo := unit;
  ProjectFile := string;
  isIncompatible := incompatible;
  removeImport := λ im file symbol moduleName,
    (im ++ [RemoveImport file symbol moduleName])%list;
  projectFile := λ sf _, sf;
  insertTodoForIncompatibility := λ n _ inputInfo,
    map (mkReplacement (getSourceFile n)) (todos inputInfo);
  convertToSignalInput := λ n metadata _ im,
    (metadata,
     (im ++ [AddImport (getSourceFile n) "input" "@angular/core"])%list)
|}.

Definition compatible : Info := mkInfo false [].

(** A skipped field with one TODO line inserted at [pos]. *)
Definition skipped (pos : Z) : Info :=
  mkInfo true [mkTextUpdate pos pos "// TODO: Skipped for migration."].

Definition host (todos : bool) : MigrationHost := mkHost (mkConfig todos).

Definition checker : TypeChecker := tt.
Definition program : ProgramInfo := tt.

(** An import manager that has received no call. *)
Definition fresh : ImportManager := [].

(** Three fields of [x.ts] and one of [y.ts]. *)
Definition a : InputDescriptor :=
  mkInput "x.ts@@Cmp@@a" (mkNode "x.ts" 10 20 PropertyDeclaration).
Definition b : InputDescriptor :=
  mkInput "x.ts@@Cmp@@b" (mkNode "x.ts" 30 40 PropertyDeclaration).
Definition c : InputDescriptor :=
  mkInput "x.ts@@Cmp@@c" (mkNode "x.ts" 50 60 GetAccessor).
Definition d : InputDescriptor :=
  mkInput "y.ts@@Dir@@d" (mkNode "y.ts" 10 20 PropertyDeclaration).

(** Every field compatible. *)
Definition allCompatible : KnownInputs := λ _, compatible.

(** [b] is skipped, with its TODO at its own start; the others migrate. *)
Definition bSkipped : KnownInputs :=
  λ input, if String.eqb (key input) (key b) then skipped 30 else compatible.

(** [b] is skipped, and the annotator's edit for it, before [b]'s own
    range, replaces characters 12 to 18 of the file. *)
Definition bAnnotatedEarlier : KnownInputs :=
  λ input,
    if String.eqb (key input) (key b) then
      mkInfo true [mkTextUpdate 12 18 "/* TODO: Skipped for migration. */"]
    else compatible.

(** A result whose registry is [registry] and which holds no replacement
    yet, and the run of the pass on it with a fresh import manager. *)
Definition result (registry : list (InputDescriptor * option string))
  : MigrationResult :=
  mkResult registry [].

(** [b] is skipped, and the annotator returns two edits for it, both before
    [b] and after [a]: characters 21 to 25 and 23 to 28. *)
Definition bAnnotatedTwice : KnownInputs :=
  λ input,
    if String.eqb (key input) (key b) then
      mkInfo true [mkTextUpdate 21 25 "/* TODO: Skipped */";
                   mkTextUpdate 23 28 "/* for migration. */"]
    else compatible.

Definition run (todos : bool) (known : KnownInputs)
    (registry : list (InputDescriptor * option string))
  : Outcome unit * State :=
  pass6__migrateInputDeclarations (host todos) checker (result registry)
    known fresh program.

(** The state before the first iteration. *)
Definition start : State := mkState [] fresh [] ∅ [].

Definition aText : string := "a = input();".

(** The replacement of [a] and the event of its migration. *)
Definition aEdit : Replacement ProjectFile :=
  mkReplacement "x.ts" (mkTextUpdate 10 20 aText).
Definition aMigrated : Event := Migrated a aEdit.

(** Registries: [a] alone, with and without metadata; [b] alone; both. *)
Definition onlyA : MigrationResult := result [(a, Some aText)].
Definition aWithoutMetadata : MigrationResult := result [(a, None)].
Definition onlyB : MigrationResult := result [(b, None)].
Definition mixed : MigrationResult := result [(a, Some aText); (b, None)].

End Stub.


(** The registry of [Stub.mixed] in the other order. *)
Module StubOrders.
Import Stub.
#[local] Existing Instance Stub.collaborators.

Definition mixedSwapped : MigrationResult :=
  result [(b, None); (a, Some aText)].

(** Three migrated fields: [a] of [x.ts], [d] of [y.ts], then [b] of [x.ts]
    again. *)
Definition aThenDThenB : MigrationResult :=
  result [(a, Some aText); (d, Some "d = input();"); (b, Some "b = input();")].

End StubOrders.
(** * Properties *)

Section Properties.
Context `{C : Collaborators}.
Variables (host : MigrationHost) (checker : TypeChecker)
          (knownInputs : KnownInputs) (info : ProgramInfo).

Ltac run_monad :=
  cbv [mbind M_bind mret M_ret bind ret throw gets modify assert
       push record addMigrated addIncompatible setImportManager] in *;
  simpl in *.

(** ** One iteration of the first loop *)

Lemma forEach_cons {A} (x : A) (xs : list A) (body : A → M unit) (st : State) :
  forEach (x :: xs) body st =
  match body x st with
  | (Return _, st') => forEach xs body st'
  | (Throw e, st') => (Throw e, st')
  end.
Proof. reflexivity. Qed.

Lemma visitInput_skip input metadata st :
  isIncompatible (knownInputs input) = true →
  visitInput host checker knownInputs info (input, metadata) st =
  (Return tt,
   mkState (replacements st ++ todoEdits host knownInputs info input)
     (importManager st) (filesWithMigratedInputs st)
     ({[getSourceFile (node input)]} ∪ filesWithIncompatibleInputs st)
     (trace st ++ skipEvents host knownInputs info input)).
Proof.
  intros Hinc. unfold visitInput, skipInput, todoEdits, skipEvents.
  rewrite Hinc.
  destruct (insertTodosForSkippedFields (config host)); run_monad.
  - by rewrite <- app_assoc.
  - by rewrite app_nil_r.
Qed.

Lemma visitInput_migrate input metadata st :
  isIncompatible (knownInputs input) = false →
  isAccessor (node input) = false →
  visitInput host checker knownInputs info (input, Some metadata) st =
  let conv :=
    convertToSignalInput (node input) metadata checker (importManager st) in
  (Return tt,
   mkState (replacements st ++ [fullReplacement info input conv.1])
     conv.2 (Set_add (getSourceFile (node input)) (filesWithMigratedInputs st))
     (filesWithIncompatibleInputs st)
     (trace st ++ [Migrated input (fullReplacement info input conv.1)])).
Proof.
  intros Hinc Hacc. unfold visitInput, migrateInput. rewrite Hinc, Hacc.
  run_monad.
  by destruct (convertToSignalInput _ _ _ _).
Qed.

Lemma visitInput_violation entry st :
  violatesContract knownInputs entry = true →
  visitInput host checker knownInputs info entry st =
  (Throw (AssertionError (violationMessage entry)), st).
Proof.
  destruct entry as [input metadata].
  unfold violatesContract, violationMessage, visitInput, migrateInput. simpl.
  destruct (isIncompatible (knownInputs input)); [done|]. simpl.
  destruct metadata as [m|]; [|done]. simpl.
  intros ->. done.
Qed.

Lemma visitInput_no_violation entry st :
  violatesContract knownInputs entry = false →
  (visitInput host checker knownInputs info entry st).1 = Return tt.
Proof.
  destruct entry as [input metadata]. unfold violatesContract.
  cbn [fst snd]. intros Hok.
  destruct (isIncompatible (knownInputs input)) eqn:Hinc.
  - by rewrite visitInput_skip.
  - destruct metadata as [m|]; [|done].
    by rewrite visitInput_migrate.
Qed.

(** ** The first loop *)

Lemma afterEvents_nil st : afterEvents st (importManager st) [] = st.
Proof.
  destruct st. unfold afterEvents. simpl.
  rewrite !app_nil_r. f_equal. set_solver.
Qed.

Lemma migrateDeclarations_firstLoop registry st :
  migrateDeclarations host checker knownInputs info registry st =
  let '(o, im, evs) :=
    firstLoop host checker knownInputs info registry (importManager st) in
  (o, afterEvents st im evs).
Proof.
  unfold migrateDeclarations.
  revert st. induction registry as [|[input metadata] rest IH]; intros st.
  - simpl. by rewrite afterEvents_nil.
  - rewrite forEach_cons. simpl firstLoop.
    destruct (isIncompatible (knownInputs input)) eqn:Hinc.
    + rewrite visitInput_skip by done. rewrite IH. simpl.
      destruct (firstLoop _ _ _ _ rest (importManager st)) as [[o im] evs].
      f_equal. unfold afterEvents, skipEvents, todoEdits. simpl.
      destruct (insertTodosForSkippedFields (config host)); simpl;
        rewrite <- ?app_assoc, ?app_nil_r; f_equal; set_solver.
    + destruct metadata as [m|].
      2:{ rewrite (visitInput_violation (input, None));
            [by rewrite afterEvents_nil|].
          unfold violatesContract. simpl. by rewrite Hinc. }
      destruct (isAccessor (node input)) eqn:Hacc.
      { rewrite (visitInput_violation (input, Some m));
          [by rewrite afterEvents_nil|].
        unfold violatesContract. simpl. by rewrite Hinc, Hacc. }
      rewrite visitInput_migrate by done. simpl. rewrite IH. simpl.
      destruct (convertToSignalInput _ _ _ _) as [text im1]. simpl.
      destruct (firstLoop _ _ _ _ rest im1) as [[o im] evs].
      f_equal. unfold afterEvents. simpl.
      by rewrite <- !app_assoc.
Qed.

(** ** The second loop *)

Lemma forEach_removeInputImport files st :
  forEach files removeInputImport st =
  let clean := filter (λ f, f ∉ filesWithIncompatibleInputs st) files in
  (Return tt,
   mkState (replacements st)
     (foldl (λ im f, removeImport im f "Input" "@angular/core")
        (importManager st) clean)
     (filesWithMigratedInputs st) (filesWithIncompatibleInputs st)
     (trace st ++ map removalOf clean)).
Proof.
  revert st. induction files as [|f files IH]; intros st.
  - simpl. rewrite app_nil_r. by destruct st.
  - rewrite forEach_cons. unfold removeInputImport at 1. run_monad.
    rewrite filter_cons.
    destruct (decide (f ∈ filesWithIncompatibleInputs st)) as [Hin|Hin].
    + rewrite IH. simpl. by rewrite decide_False by (intros H; by apply H).
    + rewrite IH. simpl. rewrite decide_True by done. simpl.
      by rewrite <- app_assoc.
Qed.

Lemma removeUnusedImports_run st :
  removeUnusedImports st = (Return tt, afterRemovals st).
Proof.
  unfold removeUnusedImports. run_monad.
  by rewrite forEach_removeInputImport.
Qed.

(** ** The whole pass *)

Lemma pass_run result im :
  pass6__migrateInputDeclarations host checker result knownInputs im info =
  let '(o, im1, evs) :=
    firstLoop host checker knownInputs info (sourceInputs result) im in
  match o with
  | Return _ => (Return tt, afterRemovals (afterEvents (initial result im) im1 evs))
  | Throw e => (Throw e, afterEvents (initial result im) im1 evs)
  end.
Proof.
  unfold pass6__migrateInputDeclarations.
  change (mkState _ im [] ∅ []) with (initial result im).
  unfold mbind, M_bind, bind.
  rewrite migrateDeclarations_firstLoop. simpl.
  destruct (firstLoop _ _ _ _ _ im) as [[[[]|e] im1] evs]; [|done].
  by rewrite removeUnusedImports_run.
Qed.

(** ** Events of the first loop *)

Lemma eventFrom_mono registry entry ev :
  eventFrom host knownInputs info registry ev →
  eventFrom host knownInputs info (entry :: registry) ev.
Proof.
  destruct ev as [input edits|input|input edit|]; simpl; [| | |done].
  - intros (?&?&?&md&?). repeat split; try done. exists md. by right.
  - intros (?&md&?). split; [done|]. exists md. by right.
  - intros (?&?&md&text&?&?). repeat split; try done.
    exists md, text. split; [by right|done].
Qed.

Lemma firstLoop_events registry im :
  Forall (eventFrom host knownInputs info registry)
    (firstLoop host checker knownInputs info registry im).2.
Proof.
  revert im. induction registry as [|[input metadata] rest IH]; intros im.
  - constructor.
  - simpl.
    destruct (isIncompatible (knownInputs input)) eqn:Hinc.
    + specialize (IH im).
      destruct (firstLoop _ _ _ _ rest im) as [[o im'] evs]. simpl in *.
      apply Forall_app. split.
      * unfold skipEvents.
        destruct (insertTodosForSkippedFields (config host)) eqn:Hcfg;
          repeat constructor; simpl; try done; exists metadata; by left.
      * eapply Forall_impl; [exact IH|]. intros ev. apply eventFrom_mono.
    + destruct metadata as [m|]; [|constructor].
      destruct (isAccessor (node input)) eqn:Hacc; [constructor|].
      destruct (convertToSignalInput _ _ _ _) as [text im1].
      specialize (IH im1).
      destruct (firstLoop _ _ _ _ rest im1) as [[o im'] evs]. simpl in *.
      constructor.
      * simpl. repeat split; try done. exists m, text. split; [by left|done].
      * eapply Forall_impl; [exact IH|]. intros ev. apply eventFrom_mono.
Qed.

(** A first loop that returns has run every entry to the end of its own
    branch. *)
Lemma firstLoop_complete registry im input metadata :
  (firstLoop host checker knownInputs info registry im).1.1 = Return tt →
  (input, metadata) ∈ registry →
  let evs := (firstLoop host checker knownInputs info registry im).2 in
  if isIncompatible (knownInputs input) then Skipped input ∈ evs
  else ∃ edit, Migrated input edit ∈ evs.
Proof.
  revert im. induction registry as [|[input' metadata'] rest IH]; intros im.
  - intros _ Hin. by apply elem_of_nil in Hin.
  - simpl. intros Hret Hin.
    destruct (isIncompatible (knownInputs input')) eqn:Hinc'.
    + specialize (IH im).
      destruct (firstLoop _ _ _ _ rest im) as [[o im'] evs]. simpl in *.
      apply elem_of_cons in Hin as [Heq|Hin].
      * injection Heq as -> ->. rewrite Hinc'.
        apply elem_of_app. left. unfold skipEvents. apply elem_of_app.
        right. by left.
      * specialize (IH Hret Hin).
        destruct (isIncompatible (knownInputs input)).
        -- apply elem_of_app. by right.
        -- destruct IH as [edit Hedit]. exists edit.
           apply elem_of_app. by right.
    + destruct metadata' as [m|]; [|done].
      destruct (isAccessor (node input')) eqn:Hacc; [done|].
      destruct (convertToSignalInput _ _ _ _) as [text im1].
      specialize (IH im1).
      destruct (firstLoop _ _ _ _ rest im1) as [[o im'] evs]. simpl in *.
      apply elem_of_cons in Hin as [Heq|Hin].
      * injection Heq as -> ->. rewrite Hinc'. eexists. by left.
      * specialize (IH Hret Hin).
        destruct (isIncompatible (knownInputs input)).
        -- by right.
        -- destruct IH as [edit Hedit]. exists edit. by right.
Qed.

(** The first loop throws at the first entry that violates the contract,
    having done what it does on the entries before it and nothing more. *)
Lemma firstLoop_outcome registry im :
  match (firstLoop host checker knownInputs info registry im).1.1 with
  | Return _ =>
      Forall (λ entry, violatesContract knownInputs entry = false) registry
  | Throw e =>
      ∃ before entry after,
        registry = before ++ entry :: after ∧
        Forall (λ entry, violatesContract knownInputs entry = false) before ∧
        violatesContract knownInputs entry = true ∧
        e = AssertionError (violationMessage entry) ∧
        (firstLoop host checker knownInputs info before im).1.1 = Return tt ∧
        (firstLoop host checker knownInputs info before im).1.2 =
          (firstLoop host checker knownInputs info registry im).1.2 ∧
        (firstLoop host checker knownInputs info before im).2 =
          (firstLoop host checker knownInputs info registry im).2
  end.
Proof.
  revert im. induction registry as [|[input metadata] rest IH]; intros im.
  - simpl. constructor.
  - simpl.
    destruct (isIncompatible (knownInputs input)) eqn:Hinc.
    + specialize (IH im).
      destruct (firstLoop _ _ _ _ rest im) as [[o im'] evs] eqn:Hrest.
      simpl in *. destruct o as [[]|e].
      * constructor; [|done]. unfold violatesContract. simpl. by rewrite Hinc.
      * destruct IH as (before & entry & after & -> & Hok & Hbad & -> & Hret & Him & Hevs).
        exists ((input, metadata) :: before), entry, after.
        split; [done|]. split.
        { constructor; [|done]. unfold violatesContract. simpl. by rewrite Hinc. }
        split; [done|]. split; [done|]. simpl. rewrite Hinc.
        destruct (firstLoop _ _ _ _ before im) as [[o1 im1] evs1].
        simpl in *. by subst.
    + destruct metadata as [m|].
      2:{ simpl. exists [], (input, None), rest. simpl.
          unfold violatesContract. simpl. rewrite Hinc. by repeat split. }
      destruct (isAccessor (node input)) eqn:Hacc.
      { simpl. exists [], (input, Some m), rest. simpl.
        unfold violatesContract. simpl. rewrite Hinc, Hacc. by repeat split. }
      destruct (convertToSignalInput _ _ _ _) as [text im1] eqn:Hconv.
      specialize (IH im1).
      destruct (firstLoop _ _ _ _ rest im1) as [[o im'] evs] eqn:Hrest.
      simpl in *. destruct o as [[]|e].
      * constructor; [|done]. unfold violatesContract. simpl.
        by rewrite Hinc, Hacc.
      * destruct IH as (before & entry & after & -> & Hok & Hbad & -> & Hret & Him & Hevs).
        exists ((input, Some m) :: before), entry, after.
        split; [done|]. split.
        { constructor; [|done]. unfold violatesContract. simpl.
          by rewrite Hinc, Hacc. }
        split; [done|]. split; [done|]. simpl. rewrite Hinc, Hacc, Hconv.
        destruct (firstLoop _ _ _ _ before im1) as [[o1 im2] evs1].
        simpl in *. by subst.
Qed.

Lemma firstLoop_returns registry im :
  Forall (λ entry, violatesContract knownInputs entry = false) registry →
  (firstLoop host checker knownInputs info registry im).1.1 = Return tt.
Proof.
  intros Hok. pose proof (firstLoop_outcome registry im) as H.
  destruct ((firstLoop _ _ _ _ registry im).1.1) as [[]|e]; [done|].
  destruct H as (before & entry & after & -> & _ & Hbad & _).
  apply Forall_app in Hok as [_ Hok]. apply Forall_cons in Hok as [Hok _].
  congruence.
Qed.

(** ** The two sets and the trace *)

Lemma elem_of_Set_add (x y : string) (s : list string) :
  y ∈ Set_add x s ↔ y = x ∨ y ∈ s.
Proof.
  unfold Set_add. destruct (decide (x ∈ s)) as [Hin|Hin].
  - split; [by right|]. intros [->|?]; done.
  - rewrite elem_of_app, list_elem_of_singleton. tauto.
Qed.

Lemma NoDup_Set_add (x : string) (s : list string) :
  NoDup s → NoDup (Set_add x s).
Proof.
  intros Hs. unfold Set_add. destruct (decide (x ∈ s)) as [Hin|Hin]; [done|].
  apply NoDup_app. split; [done|]. split; [|apply NoDup_singleton].
  intros y Hy Hy'. apply list_elem_of_singleton in Hy'. by subst.
Qed.

Lemma elem_of_foldl_Set_add (y : string) (fs s : list string) :
  y ∈ foldl (λ s f, Set_add f s) s fs ↔ y ∈ s ∨ y ∈ fs.
Proof.
  revert s. induction fs as [|f fs IH]; intros s; simpl.
  - rewrite elem_of_nil. tauto.
  - rewrite IH, elem_of_Set_add, elem_of_cons. tauto.
Qed.

Lemma NoDup_foldl_Set_add (fs s : list string) :
  NoDup s → NoDup (foldl (λ s f, Set_add f s) s fs).
Proof.
  revert s. induction fs as [|f fs IH]; intros s Hs; simpl; [done|].
  by apply IH, NoDup_Set_add.
Qed.

Lemma elem_of_migratedFiles (F : string) (evs : list Event) :
  F ∈ flat_map migratedFileOf evs ↔
  ∃ input edit, Migrated input edit ∈ evs ∧ getSourceFile (node input) = F.
Proof.
  rewrite list_elem_of_In, in_flat_map. split.
  - intros (ev & Hev & HF). apply list_elem_of_In in Hev.
    destruct ev as [| |input edit|]; simpl in HF; try done.
    destruct HF as [<-|[]]. by exists input, edit.
  - intros (input & edit & Hev & <-). exists (Migrated input edit).
    split; [by apply list_elem_of_In|by left].
Qed.

Lemma elem_of_skippedFiles (F : string) (evs : list Event) :
  F ∈ flat_map skippedFileOf evs ↔
  ∃ input, Skipped input ∈ evs ∧ getSourceFile (node input) = F.
Proof.
  rewrite list_elem_of_In, in_flat_map. split.
  - intros (ev & Hev & HF). apply list_elem_of_In in Hev.
    destruct ev as [|input| |]; simpl in HF; try done.
    destruct HF as [<-|[]]. by exists input.
  - intros (input & Hev & <-). exists (Skipped input).
    split; [by apply list_elem_of_In|by left].
Qed.

Lemma elem_of_filesToClean (F : string) (st : State) :
  F ∈ filesToClean st ↔
  F ∈ filesWithMigratedInputs st ∧ F ∉ filesWithIncompatibleInputs st.
Proof. unfold filesToClean. rewrite list_elem_of_filter. tauto. Qed.

Lemma elem_of_removals (F : string) symbol moduleName (files : list string) :
  ImportRemoved F symbol moduleName ∈ map removalOf files ↔
  symbol = "Input" ∧ moduleName = "@angular/core" ∧ F ∈ files.
Proof.
  change (map removalOf files) with (removalOf <$> files).
  rewrite list_elem_of_fmap. unfold removalOf. split.
  - intros (f & Heq & Hf). by injection Heq as -> -> ->.
  - intros (-> & -> & Hf). by exists F.
Qed.

Lemma firstLoop_no_removal registry im F symbol moduleName :
  ImportRemoved F symbol moduleName ∉
    (firstLoop host checker knownInputs info registry im).2.
Proof.
  intros Hin.
  pose proof (firstLoop_events registry im) as Hall.
  rewrite Forall_forall in Hall. exact (Hall _ Hin).
Qed.

Lemma elem_of_with_removals ev (evs : list Event) (files : list string) :
  isRemoval ev = false → ev ∈ evs ++ map removalOf files ↔ ev ∈ evs.
Proof.
  intros Hev. rewrite elem_of_app. split; [|by left].
  intros [?|Hin]; [done|].
  change (map removalOf files) with (removalOf <$> files) in Hin.
  apply list_elem_of_fmap in Hin as (f & -> & _). done.
Qed.

(** The final state of the pass, in terms of the events of its first loop. *)
Lemma pass_view result im :
  let run :=
    pass6__migrateInputDeclarations host checker result knownInputs im info in
  let fl := firstLoop host checker knownInputs info (sourceInputs result) im in
  run.1 = fl.1.1 ∧
  replacements run.2 = result_replacements result ++ flat_map editsOf fl.2 ∧
  filesWithMigratedInputs run.2 =
    foldl (λ s f, Set_add f s) [] (flat_map migratedFileOf fl.2) ∧
  filesWithIncompatibleInputs run.2 = list_to_set (flat_map skippedFileOf fl.2) ∧
  ∃ cleaned,
    trace run.2 = fl.2 ++ map removalOf cleaned ∧
    NoDup cleaned ∧
    (∀ F, F ∈ cleaned ↔
          fl.1.1 = Return tt ∧ F ∈ filesWithMigratedInputs run.2 ∧
          F ∉ filesWithIncompatibleInputs run.2) ∧
    importManager run.2 =
      foldl (λ im f, removeImport im f "Input" "@angular/core") fl.1.2 cleaned ∧
    cleaned = match fl.1.1 with
              | Return _ => filesToClean run.2
              | Throw _ => []
              end.
Proof.
  intros run fl. subst run fl. rewrite pass_run.
  destruct (firstLoop _ _ _ _ _ im) as [[o im1] evs].
  destruct o as [[]|e]; cbn [fst snd].
  - unfold afterRemovals, afterEvents, initial.
    cbn [replacements filesWithMigratedInputs filesWithIncompatibleInputs
         trace importManager].
    rewrite (right_id_L ∅ (∪)), app_nil_l.
    repeat split; try done.
    eexists. split; [reflexivity|]. split; [|split; [|by split]].
    + unfold filesToClean. apply NoDup_filter.
      cbn [filesWithMigratedInputs]. apply NoDup_foldl_Set_add, NoDup_nil_2.
    + intros F. rewrite elem_of_filesToClean.
      cbn [filesWithMigratedInputs filesWithIncompatibleInputs]. tauto.
  - unfold afterEvents, initial.
    cbn [replacements filesWithMigratedInputs filesWithIncompatibleInputs
         trace importManager].
    rewrite (right_id_L ∅ (∪)), app_nil_l.
    repeat split; try done.
    exists []. simpl. rewrite app_nil_r.
    split; [done|]. split; [apply NoDup_nil_2|]. split; [|done].
    intros F. rewrite elem_of_nil. split; [done|]. by intros [? _].
Qed.

(** A file that holds an incompatible declaration keeps its import. *)
Lemma incompatible_keeps_import result im input metadata symbol moduleName :
  (input, metadata) ∈ sourceInputs result →
  isIncompatible (knownInputs input) = true →
  ImportRemoved (getSourceFile (node input)) symbol moduleName ∉
    trace (pass6__migrateInputDeclarations
             host checker result knownInputs im info).2.
Proof.
  intros Hin Hinc Hrem.
  destruct (pass_view result im)
    as (_ & _ & _ & HU & cleaned & Htrace & _ & Hcleaned & _).
  rewrite Htrace in Hrem. apply elem_of_app in Hrem as [Hrem|Hrem].
  { by apply firstLoop_no_removal in Hrem. }
  apply elem_of_removals in Hrem as (_ & _ & Hrem).
  apply Hcleaned in Hrem as (Hret & _ & HnotU).
  apply HnotU. rewrite HU, elem_of_list_to_set, elem_of_skippedFiles.
  exists input. split; [|done].
  pose proof (firstLoop_complete _ im _ _ Hret Hin) as Hdone.
  cbn zeta in Hdone. by rewrite Hinc in Hdone.
Qed.

(** ** The configuration flag and the first loop *)

Lemma firstLoop_flag registry im :
  let on := firstLoop (mkHost (mkConfig true)) checker knownInputs info
              registry im in
  let off := firstLoop (mkHost (mkConfig false)) checker knownInputs info
               registry im in
  off.1 = on.1 ∧ off.2 = filter (λ ev, negb (isAnnotation ev)) on.2.
Proof.
  revert im. induction registry as [|[input metadata] rest IH]; intros im.
  - done.
  - simpl.
    destruct (isIncompatible (knownInputs input)) eqn:Hinc.
    + specialize (IH im). simpl in IH.
      destruct (firstLoop (mkHost (mkConfig true)) _ _ _ rest im)
        as [[o1 im1] evs1].
      destruct (firstLoop (mkHost (mkConfig false)) _ _ _ rest im)
        as [[o2 im2] evs2].
      simpl in *. destruct IH as [Heq ->]. injection Heq as -> ->. done.
    + destruct metadata as [m|]; [|done].
      destruct (isAccessor (node input)); [done|].
      destruct (convertToSignalInput _ _ _ _) as [text im'].
      specialize (IH im'). simpl in IH.
      destruct (firstLoop (mkHost (mkConfig true)) _ _ _ rest im')
        as [[o1 im1] evs1].
      destruct (firstLoop (mkHost (mkConfig false)) _ _ _ rest im')
        as [[o2 im2] evs2].
      simpl in *. destruct IH as [Heq ->]. injection Heq as -> ->. done.
Qed.

Lemma flat_map_without_annotations {A} (f : Event → list A) (evs : list Event) :
  (∀ input edits, f (Annotated input edits) = []) →
  flat_map f (filter (λ ev, negb (isAnnotation ev)) evs) = flat_map f evs.
Proof.
  intros Hf. induction evs as [|ev evs IH]; [done|].
  rewrite filter_cons. destruct ev; simpl; rewrite ?Hf, ?IH; done.
Qed.

(** ** Counting removals *)

Lemma filter_removals_absent (F : string) (files : list string) :
  F ∉ files →
  filter (λ ev, isRemovalOf F ev) (map removalOf files) = [].
Proof.
  induction files as [|f files IH]; [done|].
  intros Hnot. apply not_elem_of_cons in Hnot as [Hne Hnot]. simpl.
  rewrite filter_cons. simpl.
  rewrite bool_decide_eq_false_2 by congruence. simpl. by apply IH.
Qed.

Lemma filter_removals_NoDup (F : string) (files : list string) :
  NoDup files →
  (length (filter (λ ev, isRemovalOf F ev) (map removalOf files)) ≤ 1)%nat.
Proof.
  induction 1 as [|f files Hnot Hnd IH]; simpl; [lia|].
  rewrite filter_cons. simpl.
  destruct (decide (f = F)) as [->|Hne].
  - rewrite bool_decide_eq_true_2 by done. simpl.
    rewrite filter_removals_absent by done. simpl. lia.
  - rewrite bool_decide_eq_false_2 by done. simpl. exact IH.
Qed.

Lemma filter_removals_first_loop (F : string) registry im :
  filter (λ ev, isRemovalOf F ev)
    (firstLoop host checker knownInputs info registry im).2 = [].
Proof.
  pose proof (firstLoop_events registry im) as Hevents.
  induction Hevents as [|ev evs Hev _ IH]; [done|].
  rewrite filter_cons. by destruct ev.
Qed.

(** ** Edits that do not overlap *)

Lemma compatibleEdits_sym (r1 r2 : Replacement ProjectFile) :
  compatibleEdits r1 r2 → compatibleEdits r2 r1.
Proof.
  unfold compatibleEdits, overlaps. intros Hc Hfile [H1 H2].
  apply Hc; [done|]. by split.
Qed.

Lemma fullReplacement_disjoint (e1 e2 : InputDescriptor) text1 text2 :
  (projectFile (getSourceFile (node e1)) info =
     projectFile (getSourceFile (node e2)) info →
   disjointNodes (node e1) (node e2)) →
  compatibleEdits (fullReplacement info e1 text1) (fullReplacement info e2 text2).
Proof.
  unfold compatibleEdits, overlaps, disjointNodes, fullReplacement. simpl.
  intros Hd Hfile [H1 H2]. destruct (Hd Hfile); lia.
Qed.

Lemma annotation_outside (t : Replacement ProjectFile) (e : InputDescriptor) text :
  (r_projectFile t = projectFile (getSourceFile (node e)) info →
   outside (r_update t) (node e)) →
  compatibleEdits t (fullReplacement info e text).
Proof.
  unfold compatibleEdits, overlaps, outside, fullReplacement. simpl.
  intros Ho Hfile [H1 H2]. destruct (Ho Hfile); lia.
Qed.

(** Where an appended edit comes from. *)
Lemma edit_origin registry im (x : Replacement ProjectFile) :
  x ∈ flat_map editsOf (firstLoop host checker knownInputs info registry im).2 →
  (∃ entry, entry ∈ registry ∧ x ∈ annotationsOf knownInputs info entry) ∨
  (∃ entry text, entry ∈ registry ∧ x = fullReplacement info entry.1 text).
Proof.
  rewrite list_elem_of_In, in_flat_map. intros (ev & Hev & Hx).
  apply list_elem_of_In in Hev, Hx.
  pose proof (firstLoop_events registry im) as Hevents.
  rewrite Forall_forall in Hevents. apply Hevents in Hev.
  destruct ev as [input edits|input|input edit|]; simpl in *.
  - destruct Hev as (_ & Hinc & -> & metadata & Hin). left.
    exists (input, metadata). split; [done|].
    unfold annotationsOf. simpl. by rewrite Hinc.
  - by apply elem_of_nil in Hx.
  - destruct Hev as (_ & _ & metadata & text & Hin & ->). right.
    apply list_elem_of_singleton in Hx as ->.
    by exists (input, Some metadata), text.
  - done.
Qed.

End Properties.

(** ** Pairwise relations on lists *)

Lemma Pairwise_cons {A} (R : A → A → Prop) (x : A) (l : list A) :
  Pairwise R (x :: l) ↔ (∀ y, y ∈ l → R x y ∧ R y x) ∧ Pairwise R l.
Proof.
  unfold Pairwise. split.
  - intros H. split.
    + intros y Hy. apply list_elem_of_lookup in Hy as [j Hj]. split.
      * by apply (H 0%nat (S j)).
      * by apply (H (S j) 0%nat).
    + intros i j a b Hne Hi Hj. apply (H (S i) (S j)); [lia|done|done].
  - intros [Hx Hl] [|i] [|j] a b Hne Hi Hj; simpl in *.
    + done.
    + injection Hi as <-. apply Hx. by apply list_elem_of_lookup_2 in Hj.
    + injection Hj as <-. apply Hx. by apply list_elem_of_lookup_2 in Hi.
    + apply (Hl i j); [lia|done|done].
Qed.

Lemma Pairwise_nil {A} (R : A → A → Prop) : Pairwise R [].
Proof. intros i j x y _ Hi. by rewrite lookup_nil in Hi. Qed.

Lemma Pairwise_app {A} (R : A → A → Prop) (l1 l2 : list A) :
  Pairwise R l1 → Pairwise R l2 →
  (∀ x y, x ∈ l1 → y ∈ l2 → R x y ∧ R y x) →
  Pairwise R (l1 ++ l2).
Proof.
  induction l1 as [|a l1 IH]; intros H1 H2 Hcross; [done|].
  simpl. apply Pairwise_cons in H1 as [Ha H1]. apply Pairwise_cons. split.
  - intros y Hy. apply elem_of_app in Hy as [Hy|Hy]; [by apply Ha|].
    apply Hcross; [by left|done].
  - apply IH; [done|done|]. intros x y Hx Hy. apply Hcross; [by right|done].
Qed.

Section Disjointness.
Context `{C : Collaborators}.
Variables (host : MigrationHost) (checker : TypeChecker)
          (knownInputs : KnownInputs) (info : ProgramInfo).

Lemma todoEdits_annotations input metadata t :
  isIncompatible (knownInputs input) = true →
  t ∈ todoEdits host knownInputs info input →
  t ∈ annotationsOf knownInputs info (input, metadata).
Proof.
  unfold todoEdits, annotationsOf. simpl. intros ->.
  destruct (insertTodosForSkippedFields (config host)); [done|].
  intros H. by apply elem_of_nil in H.
Qed.

Lemma firstLoop_edits_disjoint registry im :
  declarationsDisjoint info registry →
  annotationsOutsideAll knownInputs info registry →
  annotationsDisjoint knownInputs info registry →
  Pairwise compatibleEdits
    (flat_map editsOf (firstLoop host checker knownInputs info registry im).2).
Proof.
  revert im. induction registry as [|[input metadata] rest IH];
    intros im Hdecl Hout [Hwithin Hacross].
  - apply Pairwise_nil.
  - apply Pairwise_cons in Hdecl as [Hdecl0 Hdecl].
    apply Pairwise_cons in Hacross as [Hacross0 Hacross].
    assert (Hout' : annotationsOutsideAll knownInputs info rest).
    { intros entry other edit Hentry Hother. apply Hout; by right. }
    assert (Hwithin' : ∀ entry, entry ∈ rest →
              Pairwise compatibleEdits (annotationsOf knownInputs info entry)).
    { intros entry Hentry. apply Hwithin. by right. }
    simpl.
    destruct (isIncompatible (knownInputs input)) eqn:Hinc.
    + specialize (IH im Hdecl Hout' (conj Hwithin' Hacross)).
      pose proof (edit_origin host checker knownInputs info rest im) as Horigin.
      destruct (firstLoop _ _ _ _ rest im) as [[o im'] evs]. simpl in *.
      rewrite flat_map_app.
      assert (Hhead : flat_map editsOf (skipEvents host knownInputs info input) =
                      todoEdits host knownInputs info input).
      { unfold skipEvents, todoEdits.
        destruct (insertTodosForSkippedFields (config host)); simpl;
          by rewrite ?app_nil_r. }
      rewrite Hhead. apply Pairwise_app; [|done|].
      * unfold todoEdits.
        destruct (insertTodosForSkippedFields (config host));
          [|apply Pairwise_nil].
        specialize (Hwithin (input, metadata)). unfold annotationsOf in Hwithin.
        simpl in Hwithin. rewrite Hinc in Hwithin. apply Hwithin. by left.
      * intros t x Ht Hx.
        apply (todoEdits_annotations _ metadata) in Ht; [|done].
        assert (compatibleEdits t x) as Hc;
          [|split; [done|by apply compatibleEdits_sym]].
        apply Horigin in Hx as [(entry & Hentry & Hx)|(entry & text & Hentry & ->)].
        -- by apply (proj1 (Hacross0 entry Hentry)).
        -- apply annotation_outside. intros Hfile.
           apply (Hout (input, metadata) entry t); [by left|by right|done|done].
    + destruct metadata as [m|]; [|apply Pairwise_nil].
      destruct (isAccessor (node input)) eqn:Hacc; [apply Pairwise_nil|].
      destruct (convertToSignalInput _ _ _ _) as [text im1].
      specialize (IH im1 Hdecl Hout' (conj Hwithin' Hacross)).
      pose proof (edit_origin host checker knownInputs info rest im1) as Horigin.
      destruct (firstLoop _ _ _ _ rest im1) as [[o im'] evs]. simpl in *.
      apply Pairwise_cons. split; [|done].
      intros x Hx.
      assert (compatibleEdits x (fullReplacement info input text)) as Hc;
        [|split; [by apply compatibleEdits_sym|done]].
      apply Horigin in Hx as [(entry & Hentry & Hx)|(entry & text' & Hentry & ->)].
      * apply annotation_outside. intros Hfile.
        apply (Hout entry (input, Some m) x); [by right|by left|done|done].
      * apply fullReplacement_disjoint. intros Hfile.
        by apply (proj2 (Hdecl0 entry Hentry)).
Qed.

End Disjointness.

(** * Order, shape and composition: lemmas *)

Section MoreProperties.
Context `{C : Collaborators}.
Variables (host : MigrationHost) (checker : TypeChecker)
          (knownInputs : KnownInputs) (info : ProgramInfo).

Lemma processed_skipEvents input :
  flat_map processedInputOf (skipEvents host knownInputs info input) = [input].
Proof.
  unfold skipEvents. by destruct (insertTodosForSkippedFields (config host)).
Qed.

Lemma edits_skipEvents input :
  flat_map editsOf (skipEvents host knownInputs info input) =
  todoEdits host knownInputs info input.
Proof.
  unfold skipEvents, todoEdits.
  destruct (insertTodosForSkippedFields (config host)); simpl;
    by rewrite ?app_nil_r.
Qed.

Lemma migrated_skipEvents input :
  flat_map migratedFileOf (skipEvents host knownInputs info input) = [].
Proof.
  unfold skipEvents. by destruct (insertTodosForSkippedFields (config host)).
Qed.

(** The first loop goes through the visited entries in order: one closing
    event, the planned edits and one synthesizer call (or none) for each. *)
Lemma firstLoop_visited registry im :
  let fl := firstLoop host checker knownInputs info registry im in
  let visited := visitedEntries knownInputs registry in
  flat_map processedInputOf fl.2 = map fst visited ∧
  map shapeOf (flat_map editsOf fl.2) =
    flat_map (plannedShapes host knownInputs info) visited ∧
  fl.1.2 = foldl (synthesizerEffect checker knownInputs) im visited.
Proof.
  revert im. induction registry as [|[input metadata] rest IH]; intros im.
  - done.
  - simpl. unfold violatesContract. simpl.
    destruct (isIncompatible (knownInputs input)) eqn:Hinc; simpl.
    + specialize (IH im).
      destruct (firstLoop _ _ _ _ rest im) as [[o im'] evs]. simpl in *.
      destruct IH as (IH1 & IH2 & IH3).
      unfold plannedShapes at 1, synthesizerEffect at 2. simpl. rewrite Hinc.
      rewrite !flat_map_app, processed_skipEvents, edits_skipEvents, map_app.
      by rewrite IH1, IH2, IH3.
    + destruct metadata as [m|]; [|done]. simpl.
      destruct (isAccessor (node input)); [done|]. simpl.
      unfold plannedShapes at 1, synthesizerEffect at 2. simpl. rewrite Hinc.
      destruct (convertToSignalInput _ _ _ _) as [text im1]. simpl.
      specialize (IH im1).
      destruct (firstLoop _ _ _ _ rest im1) as [[o im'] evs]. simpl in *.
      destruct IH as (IH1 & IH2 & IH3).
      by rewrite IH1, IH2, IH3.
Qed.

Lemma visitedEntries_all registry :
  visitedEntries knownInputs registry = registry ↔
  Forall (λ entry, violatesContract knownInputs entry = false) registry.
Proof.
  induction registry as [|entry rest IH]; simpl.
  - split; [constructor|done].
  - destruct (violatesContract knownInputs entry) eqn:Hv.
    + split; [done|]. intros Hall. apply Forall_cons in Hall as [Hok _].
      congruence.
    + rewrite Forall_cons, <- IH. split.
      * intros Heq. injection Heq as Heq. done.
      * intros [_ ->]. done.
Qed.

(** The outcome of the first loop depends on the registry and the
    classification, not on the import manager it starts from. *)
Lemma firstLoop_outcome_eq registry im im' :
  (firstLoop host checker knownInputs info registry im).1.1 =
  (firstLoop host checker knownInputs info registry im').1.1.
Proof.
  revert im im'. induction registry as [|[input metadata] rest IH];
    intros im im'; [done|].
  simpl. destruct (isIncompatible (knownInputs input)).
  - specialize (IH im im').
    destruct (firstLoop _ _ _ _ rest im) as [[o1 im1] evs1].
    by destruct (firstLoop _ _ _ _ rest im') as [[o2 im2] evs2].
  - destruct metadata as [m|]; [|done].
    destruct (isAccessor (node input)); [done|].
    destruct (convertToSignalInput _ _ _ im) as [text1 im1].
    destruct (convertToSignalInput _ _ _ im') as [text2 im2].
    specialize (IH im1 im2).
    destruct (firstLoop _ _ _ _ rest im1) as [[o1 im1'] evs1].
    by destruct (firstLoop _ _ _ _ rest im2) as [[o2 im2'] evs2].
Qed.

(** When every entry is incompatible the first loop skips them all. *)
Lemma firstLoop_all_incompatible registry im :
  Forall (λ entry, isIncompatible (knownInputs entry.1) = true) registry →
  firstLoop host checker knownInputs info registry im =
  (Return tt, im,
   flat_map (λ entry, skipEvents host knownInputs info entry.1) registry).
Proof.
  induction 1 as [|[input metadata] rest Hinc _ IH]; [done|].
  simpl in *. by rewrite Hinc, IH.
Qed.

(** In a first loop that returns, the events of an input are those of its
    classification. *)
Lemma firstLoop_skipped_iff registry im input :
  (firstLoop host checker knownInputs info registry im).1.1 = Return tt →
  Skipped input ∈ (firstLoop host checker knownInputs info registry im).2 ↔
  isIncompatible (knownInputs input) = true ∧
  ∃ metadata, (input, metadata) ∈ registry.
Proof.
  intros Hret. split.
  - intros Hin.
    pose proof (firstLoop_events host checker knownInputs info registry im)
      as Hevents.
    rewrite Forall_forall in Hevents. exact (Hevents _ Hin).
  - intros [Hinc [metadata Hin]].
    pose proof (firstLoop_complete host checker knownInputs info registry im
                  input metadata Hret Hin) as Hdone.
    cbn zeta in Hdone. by rewrite Hinc in Hdone.
Qed.

Lemma firstLoop_migrated_iff registry im input :
  (firstLoop host checker knownInputs info registry im).1.1 = Return tt →
  (∃ edit,
     Migrated input edit ∈
       (firstLoop host checker knownInputs info registry im).2) ↔
  isIncompatible (knownInputs input) = false ∧
  ∃ metadata, (input, metadata) ∈ registry.
Proof.
  intros Hret. split.
  - intros [edit Hin].
    pose proof (firstLoop_events host checker knownInputs info registry im)
      as Hevents.
    rewrite Forall_forall in Hevents.
    destruct (Hevents _ Hin) as (Hinc & _ & metadata & text & Hreg & _).
    split; [done|]. by exists (Some metadata).
  - intros [Hinc [metadata Hin]].
    pose proof (firstLoop_complete host checker knownInputs info registry im
                  input metadata Hret Hin) as Hdone.
    cbn zeta in Hdone. by rewrite Hinc in Hdone.
Qed.

Lemma firstLoop_returns_iff registry im :
  (firstLoop host checker knownInputs info registry im).1.1 = Return tt ↔
  Forall (λ entry, violatesContract knownInputs entry = false) registry.
Proof.
  split; [|apply firstLoop_returns].
  intros Hret.
  pose proof (firstLoop_outcome host checker knownInputs info registry im)
    as Hout.
  by rewrite Hret in Hout.
Qed.

(** Files in the two sets of a first loop that returns, by the registry. *)
Lemma skippedFiles_iff registry im F :
  (firstLoop host checker knownInputs info registry im).1.1 = Return tt →
  F ∈ flat_map skippedFileOf
        (firstLoop host checker knownInputs info registry im).2 ↔
  ∃ input metadata,
    (input, metadata) ∈ registry ∧ getSourceFile (node input) = F ∧
    isIncompatible (knownInputs input) = true.
Proof.
  intros Hret. rewrite elem_of_skippedFiles. split.
  - intros (input & Hin & HF).
    apply firstLoop_skipped_iff in Hin as [Hinc [metadata Hreg]]; [|done].
    by exists input, metadata.
  - intros (input & metadata & Hreg & HF & Hinc). exists input.
    split; [|done]. apply firstLoop_skipped_iff; [done|].
    split; [done|]. by exists metadata.
Qed.

Lemma migratedFiles_iff registry im F :
  (firstLoop host checker knownInputs info registry im).1.1 = Return tt →
  F ∈ flat_map migratedFileOf
        (firstLoop host checker knownInputs info registry im).2 ↔
  ∃ input metadata,
    (input, metadata) ∈ registry ∧ getSourceFile (node input) = F ∧
    isIncompatible (knownInputs input) = false.
Proof.
  intros Hret. rewrite elem_of_migratedFiles. split.
  - intros (input & edit & Hin & HF).
    destruct (proj1 (firstLoop_migrated_iff registry im input Hret))
      as [Hinc [metadata Hreg]]; [by exists edit|].
    by exists input, metadata.
  - intros (input & metadata & Hreg & HF & Hinc).
    destruct (proj2 (firstLoop_migrated_iff registry im input Hret))
      as [edit Hin]; [split; [done|by exists metadata]|].
    by exists input, edit.
Qed.

(** Remove-import commands add nothing to what is read off the first loop. *)
Lemma flat_map_removals {A} (f : Event → list A) (files : list string) :
  (∀ file symbol moduleName, f (ImportRemoved file symbol moduleName) = []) →
  flat_map f (map removalOf files) = [].
Proof.
  intros Hf. induction files as [|file files IH]; [done|].
  simpl. unfold removalOf at 1. by rewrite Hf, IH.
Qed.

Lemma removedFiles_removals (files : list string) :
  flat_map removedFileOf (map removalOf files) = files.
Proof. induction files as [|file files IH]; [done|]. simpl. by rewrite IH. Qed.

Lemma removedFiles_first_loop registry im :
  flat_map removedFileOf
    (firstLoop host checker knownInputs info registry im).2 = [].
Proof.
  pose proof (firstLoop_events host checker knownInputs info registry im)
    as Hevents.
  induction Hevents as [|ev evs Hev _ IH]; [done|].
  simpl. rewrite IH. by destruct ev.
Qed.

(** A remove-import command is issued for a file exactly when the registry
    respects the contract of the assertions, holds a declaration of the file
    that is not incompatible, and holds no incompatible one. *)
Lemma removal_iff_registry result im F :
  ImportRemoved F "Input" "@angular/core" ∈
    trace (pass6__migrateInputDeclarations
             host checker result knownInputs im info).2 ↔
  Forall (λ entry, violatesContract knownInputs entry = false)
    (sourceInputs result) ∧
  (∃ input metadata,
     (input, metadata) ∈ sourceInputs result ∧
     getSourceFile (node input) = F ∧
     isIncompatible (knownInputs input) = false) ∧
  (∀ input metadata,
     (input, metadata) ∈ sourceInputs result →
     getSourceFile (node input) = F →
     isIncompatible (knownInputs input) = false).
Proof.
  destruct (pass_view host checker knownInputs info result im)
    as (_ & _ & HM & HU & cleaned & Htrace & _ & Hcl & _).
  rewrite Htrace, elem_of_app, elem_of_removals. split.
  - intros [Hin|(_ & _ & Hin)]; [by apply firstLoop_no_removal in Hin|].
    apply Hcl in Hin as (Hret & HinM & HnotU).
    split; [by apply firstLoop_returns_iff in Hret|].
    rewrite HM in HinM. apply elem_of_foldl_Set_add in HinM as [HinM|HinM];
      [by apply elem_of_nil in HinM|].
    apply migratedFiles_iff in HinM; [|done]. split; [done|].
    intros input metadata Hreg HF.
    destruct (isIncompatible (knownInputs input)) eqn:Hinc; [|done].
    exfalso. apply HnotU. rewrite HU, elem_of_list_to_set.
    apply skippedFiles_iff; [done|]. by exists input, metadata.
  - intros (Hok & Hex & Hall). right. split; [done|]. split; [done|].
    apply Hcl.
    assert (Hret : (firstLoop host checker knownInputs info
                      (sourceInputs result) im).1.1 = Return tt)
      by by apply firstLoop_returns.
    split; [done|]. split.
    + rewrite HM. apply elem_of_foldl_Set_add. right.
      by apply migratedFiles_iff.
    + rewrite HU, elem_of_list_to_set. intros HinU.
      apply skippedFiles_iff in HinU as (input & metadata & Hreg & HF & Hinc);
        [|done].
      specialize (Hall _ _ Hreg HF). congruence.
Qed.

End MoreProperties.

(** A [Set] lists its members in the order of their first insertion. *)
Lemma foldl_Set_add_firstOccurrences (files s : list string) :
  foldl (λ s f, Set_add f s) s files =
  s ++ filter (λ f, f ∉ s) (firstOccurrences files).
Proof.
  revert s. induction files as [|f files IH]; intros s.
  - simpl. by rewrite app_nil_r.
  - simpl. rewrite IH. unfold Set_add. destruct (decide (f ∈ s)) as [Hin|Hin].
    + rewrite filter_cons_False by (intros Hnot; by apply Hnot).
      f_equal. symmetry. apply list_filter_filter_l.
      intros g Hg ->. by apply Hg.
    + rewrite filter_cons_True by done.
      rewrite <- app_assoc. simpl. do 2 f_equal.
      rewrite list_filter_filter. apply list_filter_iff.
      intros g. rewrite elem_of_app, list_elem_of_singleton. tauto.
Qed.

Lemma Set_of_firstOccurrences (files : list string) :
  foldl (λ s f, Set_add f s) [] files = firstOccurrences files.
Proof.
  rewrite foldl_Set_add_firstOccurrences. simpl.
  induction (firstOccurrences files) as [|f l IH]; [done|].
  rewrite filter_cons_True by apply not_elem_of_nil. by rewrite IH.
Qed.

(** ** Strings *)

Lemma string_app_cons c (s t : string) :
  String c s +:+ t = String c (s +:+ t).
Proof. reflexivity. Qed.

Lemma string_length_app (s t : string) :
  String.length (s +:+ t) = (String.length s + String.length t)%nat.
Proof.
  induction s as [|c s IH]; [done|].
  rewrite string_app_cons. simpl. by rewrite IH.
Qed.

Lemma string_app_inj_r (s1 s2 t : string) : s1 +:+ t = s2 +:+ t → s1 = s2.
Proof.
  revert s2. induction s1 as [|c s1 IH]; intros [|c' s2] Heq.
  - done.
  - apply (f_equal String.length) in Heq.
    rewrite !string_length_app in Heq. simpl in Heq. lia.
  - apply (f_equal String.length) in Heq.
    rewrite !string_length_app in Heq. simpl in Heq. lia.
  - rewrite !string_app_cons in Heq. injection Heq as -> Heq.
    f_equal. by apply IH.
Qed.

(** * The properties of the pass *)

Section Claims.
Context `{C : Collaborators}.

(** C1, amended.  The second loop, from any state, issues a remove-import
    command for a file exactly when the file is in [filesWithMigratedInputs]
    and not in [filesWithIncompatibleInputs], and the symbol it removes is
    [Input] of [@angular/core]; the import manager it leaves is the one it
    found with [removeImport] called for those files, in the order of the
    set.  So does the pass, in every run that reaches the second loop; a run
    stopped by an assertion issues no command.  In particular no command is
    ever issued for a file whose declarations in the registry are all
    incompatible. *)
Theorem import_removed_iff host checker result knownInputs im info :
  let run :=
    pass6__migrateInputDeclarations host checker result knownInputs im info in
  (∀ st F symbol moduleName,
     ImportRemoved F symbol moduleName ∈ trace (removeUnusedImports st).2 ↔
     ImportRemoved F symbol moduleName ∈ trace st ∨
     symbol = "Input" ∧ moduleName = "@angular/core" ∧
     F ∈ filesWithMigratedInputs st ∧ F ∉ filesWithIncompatibleInputs st) ∧
  (∀ st,
     importManager (removeUnusedImports st).2 =
     foldl (λ im f, removeImport im f "Input" "@angular/core")
       (importManager st)
       (filter (λ f, f ∉ filesWithIncompatibleInputs st)
          (filesWithMigratedInputs st))) ∧
  match run.1 with
  | Return _ =>
      ∀ F symbol moduleName,
        ImportRemoved F symbol moduleName ∈ trace run.2 ↔
        symbol = "Input" ∧ moduleName = "@angular/core" ∧
        F ∈ filesWithMigratedInputs run.2 ∧
        F ∉ filesWithIncompatibleInputs run.2
  | Throw _ =>
      ∀ F symbol moduleName, ImportRemoved F symbol moduleName ∉ trace run.2
  end ∧
  ∀ F,
    (∀ input metadata,
       (input, metadata) ∈ sourceInputs result →
       getSourceFile (node input) = F →
       isIncompatible (knownInputs input) = true) →
    ∀ symbol moduleName, ImportRemoved F symbol moduleName ∉ trace run.2.
Proof.
  intros run. subst run. rewrite pass_run.
  pose proof (firstLoop_events host checker knownInputs info
                (sourceInputs result) im) as Hevents.
  pose proof (firstLoop_no_removal host checker knownInputs info
                (sourceInputs result) im) as Hnone.
  destruct (firstLoop _ _ _ _ _ im) as [[o im1] evs]. simpl in Hevents, Hnone.
  assert (Hiff : ∀ F symbol moduleName,
            ImportRemoved F symbol moduleName ∈
              trace (afterRemovals (afterEvents (initial result im) im1 evs)) ↔
            symbol = "Input" ∧ moduleName = "@angular/core" ∧
            F ∈ filesWithMigratedInputs (afterEvents (initial result im) im1 evs) ∧
            F ∉ filesWithIncompatibleInputs (afterEvents (initial result im) im1 evs)).
  { intros F symbol moduleName. unfold afterRemovals at 1. cbn [trace].
    rewrite elem_of_app, elem_of_removals, elem_of_filesToClean.
    cbn [afterEvents trace initial]. rewrite app_nil_l.
    split; [intros [Hin|?]; [by apply Hnone in Hin|done]|by right]. }
  split; [|split; [|split]].
  - intros st F symbol moduleName. rewrite removeUnusedImports_run.
    cbn [snd afterRemovals trace].
    by rewrite elem_of_app, elem_of_removals, elem_of_filesToClean.
  - intros st. by rewrite removeUnusedImports_run.
  - destruct o as [[]|e]; cbn [fst snd].
    + exact Hiff.
    + intros F symbol moduleName. cbn [afterEvents trace initial].
      rewrite app_nil_l. apply Hnone.
  - intros F Hall symbol moduleName.
    destruct o as [[]|e]; cbn [fst snd].
    + rewrite Hiff. intros (_ & _ & HM & _).
      cbn [afterEvents filesWithMigratedInputs initial] in HM.
      apply elem_of_foldl_Set_add in HM as [HM|HM];
        [by apply elem_of_nil in HM|].
      apply elem_of_migratedFiles in HM as (input & edit & Hev & HF).
      rewrite Forall_forall in Hevents. apply Hevents in Hev.
      destruct Hev as (Hcompat & _ & metadata & text & Hin & _).
      specialize (Hall _ _ Hin HF). congruence.
    + cbn [afterEvents trace initial]. rewrite app_nil_l. apply Hnone.
Qed.

(** C2.  One iteration throws an [AssertionError], leaving the state
    untouched, exactly for an entry that is not incompatible and has no
    metadata or an accessor node.  The pass throws exactly when the registry
    holds such an entry: it stops at the first one, with the message of the
    assertion that failed, in the state the entries before it have produced.
    On any other registry no assertion fires and the pass returns. *)
Theorem assertion_failure_iff host checker result knownInputs im info :
  let run :=
    pass6__migrateInputDeclarations host checker result knownInputs im info in
  (∀ entry st,
     if violatesContract knownInputs entry then
       visitInput host checker knownInputs info entry st =
       (Throw (AssertionError (violationMessage entry)), st)
     else (visitInput host checker knownInputs info entry st).1 = Return tt) ∧
  match run.1 with
  | Throw e =>
      ∃ before entry after,
        sourceInputs result = before ++ entry :: after ∧
        Forall (λ entry, violatesContract knownInputs entry = false) before ∧
        violatesContract knownInputs entry = true ∧
        e = AssertionError (violationMessage entry) ∧
        migrateDeclarations host checker knownInputs info before
          (initial result im) = (Return tt, run.2)
  | Return _ =>
      Forall (λ entry, violatesContract knownInputs entry = false)
        (sourceInputs result)
  end.
Proof.
  intros run. split.
  - intros entry st.
    destruct (violatesContract knownInputs entry) eqn:Hv.
    + by apply visitInput_violation.
    + by apply visitInput_no_violation.
  - subst run. rewrite pass_run.
    pose proof (firstLoop_outcome host checker knownInputs info
                  (sourceInputs result) im) as Hout.
    destruct (firstLoop _ _ _ _ _ im) as [[o im1] evs].
    destruct o as [[]|e]; cbn [fst snd] in *; [done|].
    destruct Hout as (before & entry & after & Hsplit & Hok & Hbad & -> &
                      Hret & Him & Hevs).
    exists before, entry, after. repeat split; try done.
    rewrite migrateDeclarations_firstLoop. cbn [initial importManager].
    destruct (firstLoop _ _ _ _ before im) as [[o' im'] evs'].
    cbn [fst snd] in *. by subst.
Qed.

(** C3, amended.  When no entry of the registry violates the contract of the
    two assertions, the pass returns and every declaration of the registry
    went down exactly one path: an incompatible one the skip path, which put
    its file in [filesWithIncompatibleInputs], any other one the migrate
    path, which put its file in [filesWithMigratedInputs].  In every run a
    file is in one of the sets exactly when the corresponding path ran to
    its end for a declaration of that file, and only a declaration that is
    not incompatible is given a full replacement. *)
Theorem exhaustive_when_contract_holds host checker result knownInputs im info :
  let run :=
    pass6__migrateInputDeclarations host checker result knownInputs im info in
  (Forall (λ entry, violatesContract knownInputs entry = false)
     (sourceInputs result) →
   run.1 = Return tt ∧ exhaustive host checker knownInputs info result im) ∧
  (∀ F, F ∈ filesWithIncompatibleInputs run.2 ↔
        ∃ input, Skipped input ∈ trace run.2 ∧ getSourceFile (node input) = F) ∧
  (∀ F, F ∈ filesWithMigratedInputs run.2 ↔
        ∃ input edit,
          Migrated input edit ∈ trace run.2 ∧ getSourceFile (node input) = F) ∧
  (∀ input, Skipped input ∈ trace run.2 →
            isIncompatible (knownInputs input) = true) ∧
  (∀ input edit, Migrated input edit ∈ trace run.2 →
                 isIncompatible (knownInputs input) = false).
Proof.
  intros run.
  destruct (pass_view host checker knownInputs info result im)
    as (Hout & _ & HM & HU & cleaned & Htrace & _).
  fold run in Hout, HM, HU, Htrace.
  pose proof (firstLoop_events host checker knownInputs info
                (sourceInputs result) im) as Hevents.
  rewrite Forall_forall in Hevents.
  set (evs := (firstLoop host checker knownInputs info
                 (sourceInputs result) im).2) in *.
  assert (Hskip : ∀ input, Skipped input ∈ trace run.2 ↔ Skipped input ∈ evs).
  { intros input. rewrite Htrace. by apply elem_of_with_removals. }
  assert (Hmig : ∀ input edit,
            Migrated input edit ∈ trace run.2 ↔ Migrated input edit ∈ evs).
  { intros input edit. rewrite Htrace. by apply elem_of_with_removals. }
  assert (HinU : ∀ F, F ∈ filesWithIncompatibleInputs run.2 ↔
            ∃ input, Skipped input ∈ trace run.2 ∧ getSourceFile (node input) = F).
  { intros F. rewrite HU, elem_of_list_to_set, elem_of_skippedFiles.
    by setoid_rewrite Hskip. }
  assert (HinM : ∀ F, F ∈ filesWithMigratedInputs run.2 ↔
            ∃ input edit,
              Migrated input edit ∈ trace run.2 ∧ getSourceFile (node input) = F).
  { intros F. rewrite HM, elem_of_foldl_Set_add, elem_of_migratedFiles.
    setoid_rewrite Hmig. rewrite elem_of_nil. tauto. }
  assert (Hs : ∀ input, Skipped input ∈ trace run.2 →
            isIncompatible (knownInputs input) = true).
  { intros input Hin. apply Hskip, Hevents in Hin. by destruct Hin. }
  assert (Hm : ∀ input edit, Migrated input edit ∈ trace run.2 →
            isIncompatible (knownInputs input) = false).
  { intros input edit Hin. apply Hmig, Hevents in Hin. by destruct Hin. }
  split; [|exact (conj HinU (conj HinM (conj Hs Hm)))].
  intros Hcontract. split.
  - rewrite Hout. by apply firstLoop_returns.
  - intros input metadata Hin. fold run.
    pose proof (firstLoop_complete host checker knownInputs info
                  (sourceInputs result) im input metadata) as Hdone.
    cbn zeta in Hdone. fold evs in Hdone.
    specialize (Hdone (firstLoop_returns _ _ _ _ _ _ Hcontract) Hin).
    destruct (isIncompatible (knownInputs input)) eqn:Hinc.
    + apply Hskip in Hdone. split; [done|]. split.
      * intros edit Hedit. apply Hm in Hedit. congruence.
      * apply HinU. by exists input.
    + destruct Hdone as [edit Hedit]. apply Hmig in Hedit. split; [by exists edit|].
      split.
      * intros Hsk. apply Hs in Hsk. congruence.
      * apply HinM. by exists input, edit.
Qed.

(** C4.  On an input that is not incompatible, has metadata and is not an
    accessor, the iteration returns and appends exactly one edit to
    [result.replacements]: it targets the declaration's file, spans
    [getStart()] to [getEnd()] of the declaration, and its text is what
    [convertToSignalInput] returns for the node, the metadata, the checker
    and the import manager of that moment.  The file joins
    [filesWithMigratedInputs]. *)
Theorem migrate_path_appends_one_edit
    host checker knownInputs info input metadata st :
  isIncompatible (knownInputs input) = false →
  isAccessor (node input) = false →
  let after :=
    visitInput host checker knownInputs info (input, Some metadata) st in
  let synthesized :=
    convertToSignalInput (node input) metadata checker (importManager st) in
  after.1 = Return tt ∧
  replacements after.2 =
    replacements st ++
    [mkReplacement (projectFile (getSourceFile (node input)) info)
       (mkTextUpdate (getStart (node input)) (getEnd (node input))
          synthesized.1)] ∧
  importManager after.2 = synthesized.2 ∧
  getSourceFile (node input) ∈ filesWithMigratedInputs after.2.
Proof.
  intros Hinc Hacc after synthesized. subst after synthesized.
  rewrite visitInput_migrate by done. cbn [fst snd replacements importManager
    filesWithMigratedInputs].
  repeat split. apply elem_of_Set_add. by left.
Qed.

(** C5.  With [insertTodosForSkippedFields] false the annotator is never
    called: the trace of the run holds no annotation, and every edit the run
    has appended is the full replacement of an input of the registry that is
    not incompatible. *)
Theorem todos_gated host checker result knownInputs im info :
  insertTodosForSkippedFields (config host) = false →
  let run :=
    pass6__migrateInputDeclarations host checker result knownInputs im info in
  Forall (λ ev, isAnnotation ev = false) (trace run.2) ∧
  flat_map todoEditsOf (trace run.2) = [] ∧
  appended result run.2 = flat_map migrateEditsOf (trace run.2) ∧
  ∀ edit, edit ∈ appended result run.2 →
    ∃ input metadata text,
      (input, Some metadata) ∈ sourceInputs result ∧
      isIncompatible (knownInputs input) = false ∧
      edit = fullReplacement info input text.
Proof.
  intros Hflag run.
  destruct (pass_view host checker knownInputs info result im)
    as (_ & HR & _ & _ & cleaned & Htrace & _).
  fold run in HR, Htrace.
  pose proof (firstLoop_events host checker knownInputs info
                (sourceInputs result) im) as Hevents.
  set (evs := (firstLoop host checker knownInputs info
                 (sourceInputs result) im).2) in *.
  assert (Hnone : Forall (λ ev, isAnnotation ev = false) evs).
  { eapply Forall_impl; [exact Hevents|]. intros [input edits| | |]; try done.
    simpl. intros [Htrue _]. congruence. }
  assert (Happ : appended result run.2 = flat_map editsOf evs).
  { unfold appended. rewrite HR. apply drop_app_length. }
  assert (Hsame : ∀ l : list Event,
            Forall (λ ev, isAnnotation ev = false) l →
            flat_map editsOf l = flat_map migrateEditsOf l ∧
            flat_map todoEditsOf l = []).
  { induction 1 as [|ev l Hev _ [IH1 IH2]]; [done|]. simpl.
    rewrite IH1, IH2. by destruct ev. }
  assert (Hrem : ∀ files : list string,
            flat_map migrateEditsOf (map removalOf files) = [] ∧
            flat_map todoEditsOf (map removalOf files) = [] ∧
            Forall (λ ev, isAnnotation ev = false) (map removalOf files)).
  { induction files as [|f files (IH1 & IH2 & IH3)]; [done|]. simpl.
    repeat split; try done. by constructor. }
  destruct (Hsame _ Hnone) as [Hedits Htodos].
  destruct (Hrem cleaned) as (Hr1 & Hr2 & Hr3).
  rewrite Htrace. rewrite !flat_map_app, Hr1, Hr2, Htodos, app_nil_r.
  split; [apply Forall_app; by split|]. split; [done|].
  split; [by rewrite Happ, app_nil_r|].
  intros edit. rewrite Happ, list_elem_of_In, in_flat_map.
  intros (ev & Hev & Hedit). apply list_elem_of_In in Hev.
  rewrite Forall_forall in Hevents, Hnone.
  pose proof (Hevents _ Hev) as Hfrom. pose proof (Hnone _ Hev) as Hno.
  destruct ev as [|input|input edit'|]; simpl in *; try done.
  destruct Hedit as [<-|[]].
  destruct Hfrom as (Hinc & _ & metadata & text & Hin & ->).
  by exists input, metadata, text.
Qed.

(** C6.  On an incompatible input the iteration returns without throwing
    and leaves the import manager as it found it; it changes nothing but
    [result.replacements], to which it appends the annotator's edits when
    [insertTodosForSkippedFields] is set and nothing otherwise, and
    [filesWithIncompatibleInputs], to which it adds the input's file. *)
Theorem skip_path_frame host checker knownInputs info input metadata st :
  isIncompatible (knownInputs input) = true →
  let after :=
    visitInput host checker knownInputs info (input, metadata) st in
  after.1 = Return tt ∧
  importManager after.2 = importManager st ∧
  filesWithMigratedInputs after.2 = filesWithMigratedInputs st ∧
  filesWithIncompatibleInputs after.2 =
    {[getSourceFile (node input)]} ∪ filesWithIncompatibleInputs st ∧
  replacements after.2 =
    replacements st ++
    (if insertTodosForSkippedFields (config host) then
       insertTodoForIncompatibility (node input) info (knownInputs input)
     else []) ∧
  ∃ evs, trace after.2 = trace st ++ evs ∧
         Forall (λ ev, isRemoval ev = false) evs.
Proof.
  intros Hinc after. subst after. rewrite visitInput_skip by done.
  cbn [fst snd replacements importManager filesWithMigratedInputs
       filesWithIncompatibleInputs trace].
  repeat split. eexists. split; [reflexivity|].
  unfold skipEvents.
  destruct (insertTodosForSkippedFields (config host)); by repeat constructor.
Qed.

(** C7.  In every run, when a remove-import command is issued, every
    declaration of the registry has already been processed by the first
    loop, and nothing but remove-import commands follows: the second loop
    starts only after the first has gone through the whole registry. *)
Theorem removals_after_first_loop host checker result knownInputs im info :
  let run :=
    pass6__migrateInputDeclarations host checker result knownInputs im info in
  ∀ before file symbol moduleName after,
    trace run.2 = before ++ ImportRemoved file symbol moduleName :: after →
    (∀ input metadata,
       (input, metadata) ∈ sourceInputs result → processed input before) ∧
    Forall (λ ev, isRemoval ev = true) after.
Proof.
  intros run before file symbol moduleName after Hsplit.
  destruct (pass_view host checker knownInputs info result im)
    as (_ & _ & _ & _ & cleaned & Htrace & _ & Hcleaned & _).
  fold run in Htrace, Hcleaned. rewrite Htrace in Hsplit.
  set (evs := (firstLoop host checker knownInputs info
                 (sourceInputs result) im).2) in *.
  assert (Hmid : ∃ mid, before = evs ++ mid ∧
            map removalOf cleaned = mid ++ ImportRemoved file symbol moduleName :: after).
  { apply app_eq_app in Hsplit as [l [[Hevs Hrest]|[Hbefore Hrest]]].
    - destruct l as [|ev l].
      + exists []. rewrite app_nil_r in Hevs. by rewrite Hevs, app_nil_r.
      + simpl in Hrest. injection Hrest as <- _.
        exfalso.
        apply (firstLoop_no_removal host checker knownInputs info
                 (sourceInputs result) im file symbol moduleName).
        fold evs. rewrite Hevs. apply elem_of_app. right. by left.
    - by exists l. }
  destruct Hmid as (mid & -> & Hmid).
  assert (Hret : (firstLoop host checker knownInputs info
                    (sourceInputs result) im).1.1 = Return tt).
  { assert (Hin : ImportRemoved file symbol moduleName ∈ map removalOf cleaned).
    { rewrite Hmid. apply elem_of_app. right. by left. }
    apply elem_of_removals in Hin as (_ & _ & Hin).
    by apply Hcleaned in Hin as [? _]. }
  split.
  - intros input metadata Hin.
    pose proof (firstLoop_complete host checker knownInputs info
                  _ im _ _ Hret Hin) as Hdone.
    cbn zeta in Hdone. fold evs in Hdone. unfold processed.
    destruct (isIncompatible (knownInputs input)).
    + left. apply elem_of_app. by left.
    + right. destruct Hdone as [edit Hedit]. exists edit.
      apply elem_of_app. by left.
  - assert (Hall : Forall (λ ev, isRemoval ev = true) (map removalOf cleaned)).
    { clear. induction cleaned; by constructor. }
    rewrite Hmid in Hall. apply Forall_app in Hall as [_ Hall].
    by apply Forall_cons in Hall as [_ Hall].
Qed.

(** C9.  In every run at most one remove-import command is issued for any
    one file. *)
Theorem at_most_one_removal_per_file host checker result knownInputs im info :
  let run :=
    pass6__migrateInputDeclarations host checker result knownInputs im info in
  ∀ F, (length (filter (λ ev, isRemovalOf F ev) (trace run.2)) ≤ 1)%nat.
Proof.
  intros run F.
  destruct (pass_view host checker knownInputs info result im)
    as (_ & _ & _ & _ & cleaned & Htrace & Hnodup & _).
  fold run in Htrace. rewrite Htrace, filter_app, filter_removals_first_loop.
  by apply filter_removals_NoDup.
Qed.

(** C10.  Running the pass with [insertTodosForSkippedFields] set and
    running it with the flag cleared, on the same arguments otherwise, gives
    the same outcome, the same full replacements, the same two sets, the same
    remove-import commands and the same import manager.  The run without the
    flag does what the run with the flag does, less the annotations, and
    appends the full replacements only.  A file that holds an incompatible
    declaration keeps its import in the run without the flag as well. *)
Theorem todo_flag_noninterference checker result knownInputs im info :
  let on :=
    pass6__migrateInputDeclarations (mkHost (mkConfig true)) checker result
      knownInputs im info in
  let off :=
    pass6__migrateInputDeclarations (mkHost (mkConfig false)) checker result
      knownInputs im info in
  off.1 = on.1 ∧
  flat_map migrateEditsOf (trace off.2) = flat_map migrateEditsOf (trace on.2) ∧
  filesWithMigratedInputs off.2 = filesWithMigratedInputs on.2 ∧
  filesWithIncompatibleInputs off.2 = filesWithIncompatibleInputs on.2 ∧
  filter (λ ev, isRemoval ev) (trace off.2) =
    filter (λ ev, isRemoval ev) (trace on.2) ∧
  importManager off.2 = importManager on.2 ∧
  trace off.2 = filter (λ ev, negb (isAnnotation ev)) (trace on.2) ∧
  appended result off.2 = flat_map migrateEditsOf (trace on.2) ∧
  ∀ input metadata symbol moduleName,
    (input, metadata) ∈ sourceInputs result →
    isIncompatible (knownInputs input) = true →
    ImportRemoved (getSourceFile (node input)) symbol moduleName ∉ trace off.2.
Proof.
  intros on off.
  destruct (pass_view (mkHost (mkConfig true)) checker knownInputs info result im)
    as (Hout1 & HR1 & HM1 & HU1 & cleaned1 & Htrace1 & _ & _ & Him1 & Hcl1).
  destruct (pass_view (mkHost (mkConfig false)) checker knownInputs info result im)
    as (Hout2 & HR2 & HM2 & HU2 & cleaned2 & Htrace2 & _ & _ & Him2 & Hcl2).
  fold on in Hout1, HR1, HM1, HU1, Htrace1, Him1, Hcl1.
  fold off in Hout2, HR2, HM2, HU2, Htrace2, Him2, Hcl2.
  destruct (firstLoop_flag checker knownInputs info (sourceInputs result) im)
    as [Hsame Hevs].
  cbn zeta in Hsame, Hevs.
  destruct (firstLoop (mkHost (mkConfig true)) _ _ _ _ im) as [[o1 im1] evs1].
  destruct (firstLoop (mkHost (mkConfig false)) _ _ _ _ im) as [[o2 im2] evs2].
  cbn [fst snd] in *. injection Hsame as -> ->. subst evs2.
  assert (HM : filesWithMigratedInputs off.2 = filesWithMigratedInputs on.2).
  { by rewrite HM1, HM2, flat_map_without_annotations. }
  assert (HU : filesWithIncompatibleInputs off.2 = filesWithIncompatibleInputs on.2).
  { by rewrite HU1, HU2, flat_map_without_annotations. }
  assert (Hcl : cleaned2 = cleaned1).
  { rewrite Hcl1, Hcl2. destruct o1; [|done]. unfold filesToClean.
    by rewrite HM, HU. }
  clear Hcl1 Hcl2. subst cleaned2.
  assert (Hfilter : ∀ files : list string,
            filter (λ ev, negb (isAnnotation ev)) (map removalOf files) =
            map removalOf files).
  { induction files as [|f files IH]; [done|]. simpl.
    rewrite filter_cons. simpl. by rewrite IH. }
  assert (Htr : trace off.2 = filter (λ ev, negb (isAnnotation ev)) (trace on.2)).
  { by rewrite Htrace1, Htrace2, filter_app, Hfilter. }
  assert (Hmig : flat_map migrateEditsOf (trace off.2) =
                 flat_map migrateEditsOf (trace on.2)).
  { by rewrite Htr, flat_map_without_annotations. }
  repeat split; try done.
  - by rewrite Hout1, Hout2.
  - rewrite Htr. clear. induction (trace on.2) as [|ev evs IH]; [done|].
    rewrite !filter_cons. destruct ev; simpl; rewrite ?filter_cons; simpl;
      by rewrite ?IH.
  - by rewrite Him1, Him2.
  - unfold appended. rewrite HR2, drop_app_length, <- Hmig, Htrace2.
    rewrite flat_map_app.
    assert (Hnone : flat_map migrateEditsOf (map removalOf cleaned1) = []).
    { clear. induction cleaned1; done. }
    rewrite Hnone, app_nil_r.
    clear. induction evs1 as [|ev evs IH]; [done|].
    rewrite filter_cons. destruct ev; simpl; by rewrite ?IH.
  - intros input metadata symbol moduleName Hin Hinc.
    by eapply incompatible_keeps_import.
Qed.

(** C8, amended.  When distinct declarations of one file occupy disjoint
    ranges, every edit of the annotator lies outside the range of every
    declaration of the registry in its file, and the edits of the annotator
    do not overlap one another, no two edits the run has appended for one
    file overlap. *)
Theorem edits_disjoint host checker result knownInputs im info :
  declarationsDisjoint info (sourceInputs result) →
  annotationsOutsideAll knownInputs info (sourceInputs result) →
  annotationsDisjoint knownInputs info (sourceInputs result) →
  editsDisjoint host checker knownInputs info result im.
Proof.
  intros Hdecl Hout Hann. unfold editsDisjoint.
  destruct (pass_view host checker knownInputs info result im)
    as (_ & HR & _).
  unfold appended. rewrite HR, drop_app_length.
  by apply firstLoop_edits_disjoint.
Qed.

End Claims.

(** * Further properties of the pass *)

Section Extras.
Context `{C : Collaborators}.

(** X1.  The pass issues the remove-import command for a file exactly when
    no entry of the registry makes an assertion fail, the registry holds a
    declaration of the file that is not incompatible, and every declaration
    of the file in the registry is such. *)
Theorem removal_decided_by_registry host checker result knownInputs im info F :
  let run :=
    pass6__migrateInputDeclarations host checker result knownInputs im info in
  ImportRemoved F "Input" "@angular/core" ∈ trace run.2 ↔
  Forall (λ entry, violatesContract knownInputs entry = false)
    (sourceInputs result) ∧
  (∃ input metadata,
     (input, metadata) ∈ sourceInputs result ∧
     getSourceFile (node input) = F ∧
     isIncompatible (knownInputs input) = false) ∧
  (∀ input metadata,
     (input, metadata) ∈ sourceInputs result →
     getSourceFile (node input) = F →
     isIncompatible (knownInputs input) = false).
Proof. apply removal_iff_registry. Qed.

(** X2.  The first loop processes the declarations in the iteration order of
    the registry, each once, up to the first entry that makes an assertion
    fail; the pass returns exactly when that is the whole registry. *)
Theorem processed_in_registry_order host checker result knownInputs im info :
  let run :=
    pass6__migrateInputDeclarations host checker result knownInputs im info in
  flat_map processedInputOf (trace run.2) =
    map fst (visitedEntries knownInputs (sourceInputs result)) ∧
  (run.1 = Return tt ↔
   visitedEntries knownInputs (sourceInputs result) = sourceInputs result).
Proof.
  intros run.
  destruct (pass_view host checker knownInputs info result im)
    as (Hout & _ & _ & _ & cleaned & Htrace & _).
  fold run in Hout, Htrace.
  destruct (firstLoop_visited host checker knownInputs info
              (sourceInputs result) im) as (Hproc & _).
  split.
  - rewrite Htrace, flat_map_app, Hproc, flat_map_removals by done.
    by rewrite app_nil_r.
  - by rewrite Hout, visitedEntries_all, firstLoop_returns_iff.
Qed.


(** X4.  The import manager the pass leaves is the one it received, handed
    to the synthesizer once for each visited entry that is not incompatible,
    in registry order, each call working on what the call before has left,
    and then, when the pass returns, to [removeImport] for the files of
    [filesWithMigratedInputs] that are not in [filesWithIncompatibleInputs],
    in the order of the set. *)
Theorem import_manager_composition host checker result knownInputs im info :
  let run :=
    pass6__migrateInputDeclarations host checker result knownInputs im info in
  importManager run.2 =
  foldl (λ im f, removeImport im f "Input" "@angular/core")
    (foldl (synthesizerEffect checker knownInputs) im
       (visitedEntries knownInputs (sourceInputs result)))
    match run.1 with
    | Return _ =>
        filter (λ f, f ∉ filesWithIncompatibleInputs run.2)
          (filesWithMigratedInputs run.2)
    | Throw _ => []
    end.
Proof.
  intros run.
  destruct (pass_view host checker knownInputs info result im)
    as (Hout & _ & _ & _ & cleaned & _ & _ & _ & Him & Hcl).
  fold run in Hout, Him, Hcl.
  destruct (firstLoop_visited host checker knownInputs info
              (sourceInputs result) im) as (_ & _ & Hsynth).
  by rewrite Him, Hcl, Hsynth, Hout.
Qed.

(** X5.  On a registry whose declarations are all incompatible (the empty
    registry among them) the pass returns, leaves the import manager as it
    received it, records no migrated file, issues no remove-import command,
    and appends the annotator's edits and nothing else. *)
Theorem only_incompatible_declarations host checker result knownInputs im info :
  (∀ input metadata,
     (input, metadata) ∈ sourceInputs result →
     isIncompatible (knownInputs input) = true) →
  let run :=
    pass6__migrateInputDeclarations host checker result knownInputs im info in
  run.1 = Return tt ∧
  importManager run.2 = im ∧
  filesWithMigratedInputs run.2 = [] ∧
  (∀ F symbol moduleName, ImportRemoved F symbol moduleName ∉ trace run.2) ∧
  appended result run.2 =
    flat_map (λ entry, todoEdits host knownInputs info entry.1)
      (sourceInputs result).
Proof.
  intros Hall run.
  assert (Hinc : Forall (λ entry, isIncompatible (knownInputs entry.1) = true)
                   (sourceInputs result)).
  { apply Forall_forall. intros [input metadata] Hin. by apply (Hall _ metadata). }
  destruct (pass_view host checker knownInputs info result im)
    as (Hout & HR & HM & _ & cleaned & Htrace & _ & Hcl & Him & _).
  fold run in Hout, HR, HM, Htrace, Hcl, Him.
  pose proof (firstLoop_no_removal host checker knownInputs info
                (sourceInputs result) im) as Hnone.
  rewrite (firstLoop_all_incompatible host checker knownInputs info _ im Hinc)
    in Hout, HR, HM, Htrace, Hcl, Him, Hnone.
  cbn [fst snd] in *.
  assert (Hmig : ∀ registry : list (InputDescriptor * option Metadata),
            flat_map migratedFileOf
              (flat_map (λ entry, skipEvents host knownInputs info entry.1)
                 registry) = []).
  { induction registry as [|entry rest IH]; [done|]. simpl.
    by rewrite flat_map_app, migrated_skipEvents, IH. }
  assert (Hedits : ∀ registry : list (InputDescriptor * option Metadata),
            flat_map editsOf
              (flat_map (λ entry, skipEvents host knownInputs info entry.1)
                 registry) =
            flat_map (λ entry, todoEdits host knownInputs info entry.1)
              registry).
  { induction registry as [|entry rest IH]; [done|]. simpl.
    by rewrite flat_map_app, edits_skipEvents, IH. }
  rewrite Hmig in HM. simpl in HM.
  assert (Hempty : cleaned = []).
  { apply elem_of_nil_inv. intros F HF. apply Hcl in HF as (_ & HF & _).
    rewrite HM in HF. by apply elem_of_nil in HF. }
  subst cleaned. simpl in *. rewrite app_nil_r in Htrace.
  repeat split; try done.
  - intros F symbol moduleName. rewrite Htrace. apply Hnone.
  - unfold appended. by rewrite HR, drop_app_length, Hedits.
Qed.

(** X6.  [filesWithMigratedInputs] lists the files of the migrated
    declarations, each once, in the order of their first migration; when the
    pass returns, the remove-import commands name, in that same order, the
    files of that list that are not in [filesWithIncompatibleInputs], and
    when it throws there is none. *)
Theorem removals_in_migration_order host checker result knownInputs im info :
  let run :=
    pass6__migrateInputDeclarations host checker result knownInputs im info in
  filesWithMigratedInputs run.2 =
    firstOccurrences (flat_map migratedFileOf (trace run.2)) ∧
  flat_map removedFileOf (trace run.2) =
    match run.1 with
    | Return _ =>
        filter (λ f, f ∉ filesWithIncompatibleInputs run.2)
          (firstOccurrences (flat_map migratedFileOf (trace run.2)))
    | Throw _ => []
    end.
Proof.
  intros run.
  destruct (pass_view host checker knownInputs info result im)
    as (Hout & _ & HM & _ & cleaned & Htrace & _ & _ & _ & Hcl).
  fold run in Hout, HM, Htrace, Hcl.
  assert (Hmig : flat_map migratedFileOf (trace run.2) =
                 flat_map migratedFileOf
                   (firstLoop host checker knownInputs info
                      (sourceInputs result) im).2).
  { rewrite Htrace, flat_map_app.
    rewrite (flat_map_removals migratedFileOf) by done. by rewrite app_nil_r. }
  assert (Hset : filesWithMigratedInputs run.2 =
                 firstOccurrences (flat_map migratedFileOf (trace run.2))).
  { by rewrite Hmig, HM, Set_of_firstOccurrences. }
  split; [done|].
  rewrite <- Hset, Hout.
  rewrite Htrace at 1.
  rewrite flat_map_app, removedFiles_first_loop, removedFiles_removals.
  by rewrite app_nil_l, Hcl.
Qed.

(** X7.  The import decisions do not depend on the iteration order of the
    registry: on two registries that hold the same entries in different
    orders, the pass returns on one exactly when it returns on the other, it
    removes the import from the same files, and when it returns the two sets
    hold the same files. *)
Theorem removal_decisions_order_independent
    host checker result1 result2 knownInputs im1 im2 info :
  sourceInputs result1 ≡ₚ sourceInputs result2 →
  let run1 :=
    pass6__migrateInputDeclarations host checker result1 knownInputs im1 info in
  let run2 :=
    pass6__migrateInputDeclarations host checker result2 knownInputs im2 info in
  (run1.1 = Return tt ↔ run2.1 = Return tt) ∧
  (∀ F, ImportRemoved F "Input" "@angular/core" ∈ trace run1.2 ↔
        ImportRemoved F "Input" "@angular/core" ∈ trace run2.2) ∧
  (run1.1 = Return tt →
   filesWithIncompatibleInputs run1.2 = filesWithIncompatibleInputs run2.2 ∧
   filesWithMigratedInputs run1.2 ≡ₚ filesWithMigratedInputs run2.2).
Proof.
  intros Hperm run1 run2.
  assert (Hmem : ∀ entry, entry ∈ sourceInputs result1 ↔
                          entry ∈ sourceInputs result2).
  { intros entry. by rewrite Hperm. }
  destruct (pass_view host checker knownInputs info result1 im1)
    as (Hout1 & _ & HM1 & HU1 & _).
  destruct (pass_view host checker knownInputs info result2 im2)
    as (Hout2 & _ & HM2 & HU2 & _).
  fold run1 in Hout1, HM1, HU1. fold run2 in Hout2, HM2, HU2.
  assert (Hret : run1.1 = Return tt ↔ run2.1 = Return tt).
  { rewrite Hout1, Hout2, !firstLoop_returns_iff. by rewrite Hperm. }
  split; [done|]. split.
  - intros F. subst run1 run2. rewrite !removal_iff_registry, Hperm.
    by setoid_rewrite Hmem.
  - intros Hret1. pose proof (proj1 Hret Hret1) as Hret2.
    rewrite Hout1 in Hret1. rewrite Hout2 in Hret2. split.
    + apply set_eq. intros F.
      rewrite HU1, HU2, !elem_of_list_to_set, !skippedFiles_iff by done.
      by setoid_rewrite Hmem.
    + rewrite HM1, HM2.
      apply NoDup_Permutation;
        [apply NoDup_foldl_Set_add, NoDup_nil_2..|].
      intros F. rewrite !elem_of_foldl_Set_add, !migratedFiles_iff by done.
      by setoid_rewrite Hmem.
Qed.

(** X8.  The pass does not look at what [result.replacements] already holds:
    run a second time on the result and the import manager it has left, it
    has the same outcome and appends edits on the same files and ranges once
    more. *)
Theorem rerun_appends_same_shapes host checker result knownInputs im info :
  let first :=
    pass6__migrateInputDeclarations host checker result knownInputs im info in
  let second := rerun host checker knownInputs info result im in
  let planned :=
    flat_map (plannedShapes host knownInputs info)
      (visitedEntries knownInputs (sourceInputs result)) in
  second.1 = first.1 ∧
  map shapeOf (appended result second.2) = planned ++ planned.
Proof.
  intros first second planned. subst second. unfold rerun. fold first.
  set (result' := mkResult (sourceInputs result) (replacements first.2)).
  destruct (pass_view host checker knownInputs info result im)
    as (Hout1 & HR1 & _).
  destruct (pass_view host checker knownInputs info result'
              (importManager first.2)) as (Hout2 & HR2 & _).
  fold first in Hout1, HR1.
  destruct (firstLoop_visited host checker knownInputs info
              (sourceInputs result) im) as (_ & Hs1 & _).
  destruct (firstLoop_visited host checker knownInputs info
              (sourceInputs result') (importManager first.2)) as (_ & Hs2 & _).
  split.
  - rewrite Hout1, Hout2. apply firstLoop_outcome_eq.
  - unfold appended. rewrite HR2. cbn [result_replacements result'].
    rewrite HR1, <- app_assoc, drop_app_length, map_app.
    by rewrite Hs1, Hs2.
Qed.

End Extras.

(** * The error messages of the image loader tests *)

(** X9.  The message for an absolute [ngSrc] and the message for an invalid
    loader path are never the same string, whatever their arguments. *)
Theorem loader_errors_distinct src path path' formats :
  absoluteUrlError src path ≠ invalidPathError path' formats.
Proof.
  unfold absoluteUrlError, invalidPathError.
  rewrite !string_app_cons. discriminate.
Qed.

(** X10.  Each message determines each of its arguments when the other is
    fixed: two absolute-URL messages for one loader path are equal only for
    the same [ngSrc], and for one [ngSrc] only for the same path; likewise
    for the path and the formats of the invalid-path message. *)
Theorem loader_errors_injective :
  (∀ src src' path,
     absoluteUrlError src path = absoluteUrlError src' path ↔ src = src') ∧
  (∀ src path path',
     absoluteUrlError src path = absoluteUrlError src path' ↔ path = path') ∧
  (∀ path path' formats,
     invalidPathError path formats = invalidPathError path' formats ↔
     path = path') ∧
  (∀ path formats formats',
     invalidPathError path formats = invalidPathError path formats' ↔
     formats = formats').
Proof.
  unfold absoluteUrlError, invalidPathError.
  repeat split; try (by intros ->); intros Heq.
  - do 2 apply (inj (String.append _)) in Heq.
    by apply string_app_inj_r in Heq.
  - do 7 apply (inj (String.append _)) in Heq.
    by apply string_app_inj_r in Heq.
  - apply (inj (String.append _)) in Heq.
    by apply string_app_inj_r in Heq.
  - by do 4 apply (inj (String.append _)) in Heq.
Qed.

(** * The pass on concrete registries *)

Module Scenarios.
Import Stub.
#[local] Existing Instance Stub.collaborators.

(** Scenario A: one compatible declaration; one edit over its range, and the
    import of its file is removed. *)
Example scenario_A :
  run true allCompatible [(a, Some aText)] =
  (Return tt,
   mkState
     [mkReplacement "x.ts" (mkTextUpdate 10 20 aText)]
     [AddImport "x.ts" "input" "@angular/core";
      RemoveImport "x.ts" "Input" "@angular/core"]
     ["x.ts"] ∅
     [Migrated a (mkReplacement "x.ts" (mkTextUpdate 10 20 aText));
      ImportRemoved "x.ts" "Input" "@angular/core"]).
Proof. reflexivity. Qed.

(** Scenario C: a compatible and an incompatible declaration in one file;
    the import stays. *)
Example scenario_C :
  let run := run true bSkipped [(a, Some aText); (b, None)] in
  run.1 = Return tt ∧
  replacements run.2 =
    [mkReplacement "x.ts" (mkTextUpdate 10 20 aText);
     mkReplacement "x.ts"
       (mkTextUpdate 30 30 "// TODO: Skipped for migration.")] ∧
  importManager run.2 = [AddImport "x.ts" "input" "@angular/core"] ∧
  filter (λ ev, isRemoval ev) (trace run.2) = [].
Proof. by vm_compute. Qed.

(** Scenario D: one incompatible declaration, flag cleared: no edit, and the
    import manager is not touched. *)
Example scenario_D :
  let run := run false bSkipped [(b, None)] in
  run.1 = Return tt ∧ replacements run.2 = [] ∧ importManager run.2 = [].
Proof. by vm_compute. Qed.

(** A compatible declaration without metadata stops the pass at the first
    assertion, an accessor at the second; what was done before stays. *)
Example missing_metadata_throws :
  let run := run true allCompatible [(a, Some aText); (b, None)] in
  run.1 = Throw (AssertionError metadataMessage) ∧
  replacements run.2 = [mkReplacement "x.ts" (mkTextUpdate 10 20 aText)] ∧
  filesWithMigratedInputs run.2 = ["x.ts"] ∧
  filter (λ ev, isRemoval ev) (trace run.2) = [].
Proof. by vm_compute. Qed.

Example accessor_throws :
  (run true allCompatible [(c, Some "c = input();")]).1 =
  Throw (AssertionError accessorMessage).
Proof. reflexivity. Qed.

(** ** The theorems at concrete registries *)

Ltac elem_cases H :=
  repeat (apply elem_of_cons in H as [H|H]; [subst|]);
  try (by apply elem_of_nil in H).

(** [x.ts] holds the skipped [b] only: its import is never removed. *)
Lemma import_removed_iff_witness :
  ImportRemoved "x.ts" "Input" "@angular/core" ∉
    trace (pass6__migrateInputDeclarations
             (host true) checker onlyB bSkipped fresh program).2.
Proof.
  apply (proj2 (proj2 (proj2 (import_removed_iff (host true) checker onlyB
                                bSkipped fresh program))) "x.ts").
  intros input metadata Hin _.
  apply list_elem_of_singleton in Hin. injection Hin as -> ->. reflexivity.
Defined.

(** The claim as it stands fails on a run that an assertion stops: with
    every field classified compatible, [a] migrates and puts [x.ts] in
    [filesWithMigratedInputs], [b] has no metadata and line 49 throws; the
    second loop is never reached, so [x.ts], in the first set and not in the
    second, keeps its import. *)
Lemma import_removed_iff_counterexample :
  let run :=
    pass6__migrateInputDeclarations
      (host true) checker mixed allCompatible fresh program in
  ¬ removalFollowsSets (host true) checker allCompatible program mixed fresh ∧
  run.1 = Throw (AssertionError metadataMessage) ∧
  "x.ts" ∈ filesWithMigratedInputs run.2 ∧
  ("x.ts" ∉ filesWithIncompatibleInputs run.2) ∧
  (ImportRemoved "x.ts" "Input" "@angular/core" ∉ trace run.2).
Proof.
  intros run.
  assert (Htrace : trace run.2 = [aMigrated]) by reflexivity.
  assert (HM : filesWithMigratedInputs run.2 = ["x.ts"]) by reflexivity.
  assert (HU : filesWithIncompatibleInputs run.2 = ∅) by reflexivity.
  assert (Hin : "x.ts" ∈ filesWithMigratedInputs run.2).
  { rewrite HM. by left. }
  assert (HnotU : "x.ts" ∉ filesWithIncompatibleInputs run.2).
  { rewrite HU. apply not_elem_of_empty. }
  assert (Hnone : ImportRemoved "x.ts" "Input" "@angular/core" ∉ trace run.2).
  { rewrite Htrace. intros Hrem.
    apply list_elem_of_singleton in Hrem. discriminate Hrem. }
  split; [|done].
  intros Hclaim. apply Hnone. apply (Hclaim "x.ts"). done.
Qed.

(** [a] migrates and [b] is skipped: both went down their own path. *)
Lemma exhaustive_when_contract_holds_witness :
  Forall (λ entry, violatesContract bSkipped entry = false)
    (sourceInputs mixed) ∧
  (pass6__migrateInputDeclarations (host true) checker mixed bSkipped fresh program).1 =
    Return tt ∧
  exhaustive (host true) checker bSkipped program mixed fresh.
Proof.
  assert (Hok : Forall (λ entry, violatesContract bSkipped entry = false)
                  (sourceInputs mixed)).
  { repeat constructor. }
  split; [exact Hok|].
  exact (proj1 (exhaustive_when_contract_holds (host true) checker mixed
                  bSkipped fresh program) Hok).
Defined.

(** The claim as it stands fails on a registry whose only declaration is
    compatible and has no metadata: the pass throws at line 49, neither path
    runs for the declaration and its file enters neither set. *)
Lemma exhaustive_counterexample :
  let run :=
    pass6__migrateInputDeclarations
      (host true) checker aWithoutMetadata allCompatible fresh program in
  ¬ exhaustive (host true) checker allCompatible program aWithoutMetadata fresh ∧
  run.1 = Throw (AssertionError metadataMessage) ∧
  ¬ processed a (trace run.2) ∧
  ("x.ts" ∉ filesWithMigratedInputs run.2) ∧
  ("x.ts" ∉ filesWithIncompatibleInputs run.2).
Proof.
  intros run.
  assert (Htrace : trace run.2 = []) by reflexivity.
  split; [|split; [reflexivity|split; [|split]]].
  - intros Hall. specialize (Hall a None (list_elem_of_here _ _)).
    change (isIncompatible (allCompatible a)) with false in Hall.
    destruct Hall as [[edit Hedit] _].
    fold run in Hedit. rewrite Htrace in Hedit.
    by apply elem_of_nil in Hedit.
  - rewrite Htrace. intros [Hin|[edit Hin]]; by apply elem_of_nil in Hin.
  - apply not_elem_of_nil.
  - apply not_elem_of_empty.
Qed.

Lemma migrate_path_appends_one_edit_witness :
  let after := visitInput (host true) checker allCompatible program (a, Some aText) start in
  after.1 = Return tt ∧
  replacements after.2 = [mkReplacement "x.ts" (mkTextUpdate 10 20 aText)] ∧
  importManager after.2 = [AddImport "x.ts" "input" "@angular/core"] ∧
  "x.ts" ∈ filesWithMigratedInputs after.2.
Proof.
  apply (migrate_path_appends_one_edit (host true) checker allCompatible program a aText
           start); reflexivity.
Defined.

Lemma todos_gated_witness :
  let run :=
    pass6__migrateInputDeclarations (host false) checker mixed bSkipped fresh program in
  Forall (λ ev, isAnnotation ev = false) (trace run.2) ∧
  flat_map todoEditsOf (trace run.2) = [] ∧
  appended mixed run.2 = flat_map migrateEditsOf (trace run.2).
Proof.
  intros run.
  destruct (todos_gated (host false) checker mixed bSkipped fresh program eq_refl)
    as (H1 & H2 & H3 & _).
  exact (conj H1 (conj H2 H3)).
Defined.

Lemma skip_path_frame_witness :
  let after := visitInput (host true) checker bSkipped program (b, None) start in
  after.1 = Return tt ∧ importManager after.2 = fresh ∧
  filesWithMigratedInputs after.2 = [].
Proof.
  intros after.
  destruct (skip_path_frame (host true) checker bSkipped program b None start eq_refl)
    as (H1 & H2 & H3 & _).
  exact (conj H1 (conj H2 H3)).
Defined.

Lemma removals_after_first_loop_witness : processed a [aMigrated].
Proof.
  apply (proj1 (removals_after_first_loop (host true) checker onlyA
                  allCompatible fresh program
                  [aMigrated] "x.ts" "Input" "@angular/core" [] eq_refl)
           a (Some aText)).
  by left.
Defined.

Lemma todo_flag_noninterference_witness :
  ImportRemoved "x.ts" "Input" "@angular/core" ∉
    trace (pass6__migrateInputDeclarations
             (host false) checker mixed bSkipped fresh program).2.
Proof.
  destruct (todo_flag_noninterference checker mixed bSkipped fresh program)
    as (_ & _ & _ & _ & _ & _ & _ & _ & Hkeeps).
  apply (Hkeeps b None "Input" "@angular/core"); [|reflexivity].
  right. by left.
Defined.

(** [a] covers 10 to 20 and [b] 30 to 40 of [x.ts]. *)
Lemma mixed_declarations_disjoint :
  declarationsDisjoint program (sourceInputs mixed).
Proof.
  apply Pairwise_cons. split.
  - intros y Hy. elem_cases Hy.
    split; intros _; unfold disjointNodes; simpl; lia.
  - apply Pairwise_cons. split; [|apply Pairwise_nil].
    intros y Hy. elem_cases Hy.
Defined.

Lemma bSkipped_annotations_outside :
  annotationsOutsideAll bSkipped program (sourceInputs mixed).
Proof.
  intros entry other edit Hentry Hother Hedit _.
  elem_cases Hentry; [elem_cases Hedit|].
  elem_cases Hedit. elem_cases Hother; unfold outside; simpl; lia.
Defined.

Lemma bSkipped_annotations_disjoint :
  annotationsDisjoint bSkipped program (sourceInputs mixed).
Proof.
  split.
  - intros entry Hentry. elem_cases Hentry; [apply Pairwise_nil|].
    apply Pairwise_cons. split; [|apply Pairwise_nil].
    intros y Hy. elem_cases Hy.
  - apply Pairwise_cons. split.
    + intros y Hy. elem_cases Hy.
      split; intros t1 t2 H1 H2; [elem_cases H1|elem_cases H2].
    + apply Pairwise_cons. split; [|apply Pairwise_nil].
      intros y Hy. elem_cases Hy.
Defined.

(** With the TODO of [b] inserted at the start of [b], the replacement of
    [a] and the TODO do not overlap. *)
Lemma edits_disjoint_witness :
  editsDisjoint (host true) checker bSkipped program mixed fresh.
Proof.
  exact (edits_disjoint (host true) checker mixed bSkipped fresh program
           mixed_declarations_disjoint bSkipped_annotations_outside
           bSkipped_annotations_disjoint).
Defined.

(** The claim as it stands fails: [a] and [b] cover disjoint ranges and the
    annotator's edit for [b], characters 12 to 18, lies before the range of
    [b], yet it overlaps the replacement of [a], characters 10 to 20. *)
Lemma edits_disjoint_counterexample :
  declarationsDisjoint program (sourceInputs mixed) ∧
  annotationsOutsideOwn bAnnotatedEarlier program (sourceInputs mixed) ∧
  ¬ editsDisjoint (host true) checker bAnnotatedEarlier program mixed fresh.
Proof.
  split; [exact mixed_declarations_disjoint|]. split.
  - intros entry edit Hentry Hedit.
    elem_cases Hentry; [elem_cases Hedit|].
    elem_cases Hedit. unfold outside. simpl. lia.
  - intros Hdisjoint.
    refine (Hdisjoint 0%nat 1%nat aEdit
              (mkReplacement "x.ts"
                 (mkTextUpdate 12 18 "/* TODO: Skipped for migration. */"))
              _ eq_refl eq_refl eq_refl _).
    + done.
    + unfold overlaps. simpl. lia.
Qed.

(** Two edits of the annotator for one declaration, outside every
    declaration of the file, may overlap each other. *)
Example annotations_may_overlap :
  declarationsDisjoint program (sourceInputs mixed) ∧
  annotationsOutsideAll bAnnotatedTwice program (sourceInputs mixed) ∧
  ¬ editsDisjoint (host true) checker bAnnotatedTwice program mixed fresh.
Proof.
  split; [exact mixed_declarations_disjoint|]. split.
  - intros entry other edit Hentry Hother Hedit _.
    elem_cases Hentry; [elem_cases Hedit|].
    elem_cases Hedit; elem_cases Hother; unfold outside; simpl; lia.
  - intros Hdisjoint.
    refine (Hdisjoint 1%nat 2%nat
              (mkReplacement "x.ts" (mkTextUpdate 21 25 "/* TODO: Skipped */"))
              (mkReplacement "x.ts" (mkTextUpdate 23 28 "/* for migration. */"))
              _ eq_refl eq_refl eq_refl _).
    + done.
    + unfold overlaps. simpl. lia.
Qed.

End Scenarios.

(** * The further properties at concrete registries *)

Module MoreScenarios.
Import Stub StubOrders.
#[local] Existing Instance Stub.collaborators.

(** [x.ts] with the skipped [b] alone: nothing but the TODO is done. *)
Lemma only_incompatible_declarations_witness :
  let run :=
    pass6__migrateInputDeclarations
      (host true) checker onlyB bSkipped fresh program in
  run.1 = Return tt ∧ importManager run.2 = fresh ∧
  filesWithMigratedInputs run.2 = [].
Proof.
  intros run.
  assert (Hall : ∀ input metadata,
            (input, metadata) ∈ sourceInputs onlyB →
            isIncompatible (bSkipped input) = true).
  { intros input metadata Hin.
    apply list_elem_of_singleton in Hin. injection Hin as -> ->. reflexivity. }
  destruct (only_incompatible_declarations (host true) checker onlyB bSkipped
              fresh program Hall) as (H1 & H2 & H3 & _).
  exact (conj H1 (conj H2 H3)).
Defined.

(** [a] then [b], and [b] then [a]: the import of [x.ts] stays either way. *)
Lemma removal_decisions_order_independent_witness :
  let run1 :=
    pass6__migrateInputDeclarations
      (host true) checker mixed bSkipped fresh program in
  let run2 :=
    pass6__migrateInputDeclarations
      (host true) checker mixedSwapped bSkipped fresh program in
  (run1.1 = Return tt ↔ run2.1 = Return tt) ∧
  (ImportRemoved "x.ts" "Input" "@angular/core" ∈ trace run1.2 ↔
   ImportRemoved "x.ts" "Input" "@angular/core" ∈ trace run2.2).
Proof.
  intros run1 run2.
  destruct (removal_decisions_order_independent (host true) checker mixed
              mixedSwapped bSkipped fresh fresh program
              (perm_swap (b, None) (a, Some aText) []))
    as (H1 & H2 & _).
  exact (conj H1 (H2 "x.ts")).
Defined.

(** The order of the registry shows in the edits, not in the decision. *)
Example swapped_registry_swaps_edits :
  map shapeOf
    (appended mixedSwapped
       (pass6__migrateInputDeclarations
          (host true) checker mixedSwapped bSkipped fresh program).2) =
  [("x.ts", 30, 30); ("x.ts", 10, 20)].
Proof. reflexivity. Qed.

(** A second run on [a] alone appends a second replacement of [a]. *)
Example rerun_duplicates :
  map shapeOf
    (replacements (rerun (host true) checker allCompatible program
                     onlyA fresh).2) =
  [("x.ts", 10, 20); ("x.ts", 10, 20)].
Proof. reflexivity. Qed.

(** [x.ts] is migrated first and last, [y.ts] in between: the import of
    [x.ts] is removed first. *)
Example removals_follow_first_migration :
  let run :=
    pass6__migrateInputDeclarations
      (host true) checker aThenDThenB allCompatible fresh program in
  flat_map migratedFileOf (trace run.2) = ["x.ts"; "y.ts"; "x.ts"] ∧
  flat_map removedFileOf (trace run.2) = ["x.ts"; "y.ts"].
Proof. by vm_compute. Qed.

End MoreScenarios.
